(** * STT API settings: the form controller of [useSttApiState.ts] and the
      enable toggle of [SttApiSettings.tsx]

    The React hook [useSttApiState] keeps four form values and three busy
    flags in component state, reads the [stt_api] entry of the settings
    store, and exposes four asynchronous handlers.  The component
    [SttApiSettingsComponent] adds a fifth handler, [handleToggleEnabled].

    Embedding.
    - The settings store entry, the hook state, the list of remote commands
      issued so far and the console form one [World].
    - A handler is a closure over the values of the render that created it
      ([Render]): the store entry and the selected provider id as they were
      at that render.  It runs up to its single [await], and is resumed
      later with the outcome of the remote command ([Awaited]).
    - [try]/[catch]/[finally] are written in a state-and-exception monad
      [Eff]; state changes made before a [throw] are kept, as in JavaScript.
    - After a handler has been resumed the component renders again, and the
      [useEffect] of the hook runs when its dependency
      [sttApiSettings?.provider_id] differs from the previous render.
    - [api_keys] and [models] are plain JavaScript objects: their own
      properties form a finite map, and a read of a key they do not hold
      goes on to [Object.prototype]. *)

From stdpp Require Import gmap strings list fin_maps.

Open Scope string_scope.
Open Scope list_scope.

(** ** Data *)

(** [SttApiProvider] of the bindings: id, label, base_url,
    allow_base_url_edit. *)
Record SttApiProvider := {
  id : string;
  label : string;
  base_url : string;
  allow_base_url_edit : bool
}.

(** The object stored under ["stt_api"].  The bindings declare five fields;
    at run time an object may lack some of them (the toggle spreads a
    possibly undefined object), so every field is optional here and
    [complete] says that all five are present. *)
Record SttApiSettings := {
  enabled : option bool;
  provider_id : option string;
  providers : option (list SttApiProvider);
  api_keys : option (gmap string string);
  models : option (gmap string string)
}.

Definition complete (s : SttApiSettings) : Prop :=
  is_Some (enabled s) ∧ is_Some (provider_id s) ∧ is_Some (providers s) ∧
  is_Some (api_keys s) ∧ is_Some (models s).

(** [{ ...p, base_url: u }] *)
Definition with_base_url (u : string) (p : SttApiProvider) : SttApiProvider :=
  {| id := id p; label := label p; base_url := u;
     allow_base_url_edit := allow_base_url_edit p |}.

(** [{ ...s, provider_id: v }] and its siblings. *)
Definition with_provider_id (v : string) (s : SttApiSettings) : SttApiSettings :=
  {| enabled := enabled s; provider_id := Some v; providers := providers s;
     api_keys := api_keys s; models := models s |}.

Definition with_providers (v : list SttApiProvider) (s : SttApiSettings)
  : SttApiSettings :=
  {| enabled := enabled s; provider_id := provider_id s; providers := Some v;
     api_keys := api_keys s; models := models s |}.

Definition with_api_keys (v : gmap string string) (s : SttApiSettings)
  : SttApiSettings :=
  {| enabled := enabled s; provider_id := provider_id s;
     providers := providers s; api_keys := Some v; models := models s |}.

Definition with_models (v : gmap string string) (s : SttApiSettings)
  : SttApiSettings :=
  {| enabled := enabled s; provider_id := provider_id s;
     providers := providers s; api_keys := api_keys s; models := Some v |}.

(** [{ ...sttApiSettings, enabled }] where [sttApiSettings] may be
    undefined: spreading undefined adds no field. *)
Definition spread_with_enabled (o : option SttApiSettings) (v : bool)
  : SttApiSettings :=
  match o with
  | Some s =>
      {| enabled := Some v; provider_id := provider_id s;
         providers := providers s; api_keys := api_keys s;
         models := models s |}
  | None =>
      {| enabled := Some v; provider_id := None; providers := None;
         api_keys := None; models := None |}
  end.

(** The properties every plain object inherits from [Object.prototype]. *)
Inductive Member :=
| P_constructor
| P_defineGetter
| P_defineSetter
| P_hasOwnProperty
| P_lookupGetter
| P_lookupSetter
| P_isPrototypeOf
| P_propertyIsEnumerable
| P_toString
| P_valueOf
| P_proto
| P_toLocaleString.

Definition Object_prototype : list (string * Member) :=
  [("constructor", P_constructor);
   ("__defineGetter__", P_defineGetter);
   ("__defineSetter__", P_defineSetter);
   ("hasOwnProperty", P_hasOwnProperty);
   ("__lookupGetter__", P_lookupGetter);
   ("__lookupSetter__", P_lookupSetter);
   ("isPrototypeOf", P_isPrototypeOf);
   ("propertyIsEnumerable", P_propertyIsEnumerable);
   ("toString", P_toString);
   ("valueOf", P_valueOf);
   ("__proto__", P_proto);
   ("toLocaleString", P_toLocaleString)].

(** The inherited property a key names, if any. *)
Definition member_of (key : string) : option Member :=
  snd <$> List.find (λ e, String.eqb (fst e) key) Object_prototype.

(** What [apiKey] and [model] can hold.  They are declared strings, but
    they are set from reads of [api_keys] and [models], and such a read can
    hand React something else than a string (see [reduce]). *)
Inductive Value :=
| Str (s : string)                      (* a string *)
| JsFalse                               (* false *)
| StringObject (s : string)             (* Object(s) *)
| BooleanObject                         (* Object(false) *)
| ObjectPrototype.                      (* Object.prototype itself *)

Coercion Str : string >-> Value.

(** What a [useState] setter is called with: a value, or a function that
    React calls with the current state. *)
Inductive Action :=
| Plain (v : Value)
| Proto (m : Member).                   (* the inherited member itself *)

Coercion Plain : Value >-> Action.

(** The result of [o[key]] on a plain object [o] whose own properties are
    strings. *)
Inductive Read :=
| Own (s : string)
| Inherited (m : Member)
| Undefined.

(** [o[key]]: an own property first, then [Object.prototype]. *)
Definition js_get (o : gmap string string) (key : string) : Read :=
  match o !! key with
  | Some s => Own s
  | None =>
      match member_of key with
      | Some m => Inherited m
      | None => Undefined
      end
  end.

(** [x ?? d], as the argument of a setter: only undefined gives [d]. *)
Definition or_else (x : Read) (d : string) : Action :=
  match x with
  | Own s => Plain (Str s)
  | Inherited m => Proto m
  | Undefined => Plain (Str d)
  end.

(** The state of the hook.  [selectedProviderId] is declared a string; the
    effect stores [sttApiSettings.provider_id] in it, which is undefined
    ([None]) for an object without that field. *)
Record HookState := {
  selectedProviderId : option string;
  baseUrl : string;
  apiKey : Value;
  model : Value;
  isBaseUrlUpdating : bool;
  isApiKeyUpdating : bool;
  isModelUpdating : bool
}.

(** The remote commands of [commands]. *)
Inductive Command :=
| setSttApiEnabled (enabled : bool)
| setSttApiProvider (providerId : string)
| setSttApiBaseUrl (providerId newBaseUrl : string)
| setSttApiKey (providerId newApiKey : string)
| setSttApiModel (providerId newModel : string).

(** Outcome of an awaited command: the promise is fulfilled, or it is
    rejected and [await] throws the error. *)
Inductive Awaited :=
| Fulfilled
| Rejected (error : string).

(** What a [catch] clause can receive. *)
Inductive Thrown :=
| RemoteError (error : string)
| TypeError.

Record World := {
  stt_api : option SttApiSettings;      (* getSetting("stt_api") *)
  hook : HookState;
  issued : list Command;                (* remote commands, oldest first *)
  console : list (string * Thrown);     (* console.error lines, oldest first *)
  render_throws : bool                  (* a queued state update will throw
                                           when React renders *)
}.

#[global] Instance SttApiProvider_eq_dec : EqDecision SttApiProvider.
Proof. solve_decision. Defined.
#[global] Instance SttApiSettings_eq_dec : EqDecision SttApiSettings.
Proof. solve_decision. Defined.
#[global] Instance Member_eq_dec : EqDecision Member.
Proof. solve_decision. Defined.
#[global] Instance Value_eq_dec : EqDecision Value.
Proof. solve_decision. Defined.
#[global] Instance HookState_eq_dec : EqDecision HookState.
Proof. solve_decision. Defined.
#[global] Instance Command_eq_dec : EqDecision Command.
Proof. solve_decision. Defined.
#[global] Instance Thrown_eq_dec : EqDecision Thrown.
Proof. solve_decision. Defined.
#[global] Instance World_eq_dec : EqDecision World.
Proof. solve_decision. Defined.

(** ** State and exceptions *)

(** A computation changes the world and either returns or throws; the
    world reached before a throw is kept. *)
Definition Eff (A : Type) : Type := World → (Thrown + A) * World.

Definition ret {A} (a : A) : Eff A := λ w, (inr a, w).

Definition bind {A B} (m : Eff A) (k : A → Eff B) : Eff B :=
  λ w, match m w with
       | (inl e, w') => (inl e, w')
       | (inr a, w') => k a w'
       end.

Definition throw {A} (e : Thrown) : Eff A := λ w, (inl e, w).

Notation "'let!' x ':=' m 'in' k" := (bind m (λ x, k))
  (at level 10, x name, m at level 100, k at level 200).
Notation "m >> k" := (bind m (λ _, k))
  (at level 100, k at level 200, right associativity).

(** [try { body } catch (error) { handler error }] *)
Definition try_catch (body : Eff unit) (handler : Thrown → Eff unit)
  : Eff unit :=
  λ w, match body w with
       | (inl e, w') => handler e w'
       | (inr tt, w') => (inr tt, w')
       end.

(** [try { body } catch (error) { handler error } finally { fin }]: [fin]
    runs on every path, and an exception of the handler is thrown again
    after it. *)
Definition try_catch_finally (body : Eff unit) (handler : Thrown → Eff unit)
    (fin : Eff unit) : Eff unit :=
  λ w, match try_catch body handler w with
       | (inl e, w') =>
           match fin w' with
           | (inl e', w'') => (inl e', w'')
           | (inr tt, w'') => (inl e, w'')
           end
       | (inr tt, w') => fin w'
       end.

(** Resuming after [await]: a rejected promise throws its error. *)
Definition await (r : Awaited) : Eff unit :=
  match r with
  | Fulfilled => ret tt
  | Rejected e => throw (RemoteError e)
  end.

(** Reading a property of an undefined value is a TypeError. *)
Definition defined {A} (o : option A) : Eff A :=
  match o with
  | Some a => ret a
  | None => throw TypeError
  end.

(** [updateSetting("stt_api", v)] *)
Definition updateSetting (v : SttApiSettings) : Eff unit :=
  λ w, (inr tt, {| stt_api := Some v; hook := hook w; issued := issued w;
                   console := console w;
                   render_throws := render_throws w |}).

(** [console.error(msg, error)] *)
Definition console_error (msg : string) (e : Thrown) : Eff unit :=
  λ w, (inr tt, {| stt_api := stt_api w; hook := hook w; issued := issued w;
                   console := console w ++ [(msg, e)];
                   render_throws := render_throws w |}).

Definition setState (f : HookState → HookState) : Eff unit :=
  λ w, (inr tt, {| stt_api := stt_api w; hook := f (hook w);
                   issued := issued w; console := console w;
                   render_throws := render_throws w |}).

Definition setSelectedProviderId (v : option string) : Eff unit :=
  setState (λ h,
    {| selectedProviderId := v; baseUrl := baseUrl h; apiKey := apiKey h;
       model := model h; isBaseUrlUpdating := isBaseUrlUpdating h;
       isApiKeyUpdating := isApiKeyUpdating h;
       isModelUpdating := isModelUpdating h |}).

Definition setBaseUrl (v : string) : Eff unit :=
  setState (λ h,
    {| selectedProviderId := selectedProviderId h; baseUrl := v;
       apiKey := apiKey h; model := model h;
       isBaseUrlUpdating := isBaseUrlUpdating h;
       isApiKeyUpdating := isApiKeyUpdating h;
       isModelUpdating := isModelUpdating h |}).

(** What React makes of a setter's argument and the current state
    ([typeof action === "function" ? action(state) : action]).  Every
    inherited member is a function, except [__proto__], an accessor whose
    value is [Object.prototype].  React calls a function with the state as
    its argument and no [this]: [toString] answers "[object Undefined]";
    [constructor], which is [Object], boxes a primitive and returns an
    object as it is; [isPrototypeOf] answers false for a primitive before
    it looks at [this]; every other call has to turn the missing [this]
    into an object and throws a TypeError. *)
Definition reduce (state : Value) (a : Action) : Thrown + Value :=
  match a with
  | Plain v => inr v
  | Proto P_proto => inr ObjectPrototype
  | Proto P_toString => inr (Str "[object Undefined]")
  | Proto P_constructor =>
      inr match state with
          | Str s => StringObject s
          | JsFalse => BooleanObject
          | o => o
          end
  | Proto P_isPrototypeOf =>
      match state with
      | Str _ | JsFalse => inr JsFalse
      | _ => inl TypeError
      end
  | Proto _ => inl TypeError
  end.

(** A setter called with an update that React cannot reduce: the call
    returns, and the TypeError comes out of the render that follows. *)
Definition queue_throw : Eff unit :=
  λ w, (inr tt, {| stt_api := stt_api w; hook := hook w; issued := issued w;
                   console := console w; render_throws := true |}).

Definition setApiKey (a : Action) : Eff unit :=
  λ w, match reduce (apiKey (hook w)) a with
       | inr v =>
           setState (λ h,
             {| selectedProviderId := selectedProviderId h;
                baseUrl := baseUrl h; apiKey := v; model := model h;
                isBaseUrlUpdating := isBaseUrlUpdating h;
                isApiKeyUpdating := isApiKeyUpdating h;
                isModelUpdating := isModelUpdating h |}) w
       | inl _ => queue_throw w
       end.

Definition setModel (a : Action) : Eff unit :=
  λ w, match reduce (model (hook w)) a with
       | inr v =>
           setState (λ h,
             {| selectedProviderId := selectedProviderId h;
                baseUrl := baseUrl h; apiKey := apiKey h; model := v;
                isBaseUrlUpdating := isBaseUrlUpdating h;
                isApiKeyUpdating := isApiKeyUpdating h;
                isModelUpdating := isModelUpdating h |}) w
       | inl _ => queue_throw w
       end.

Definition setIsBaseUrlUpdating (v : bool) : Eff unit :=
  setState (λ h,
    {| selectedProviderId := selectedProviderId h; baseUrl := baseUrl h;
       apiKey := apiKey h; model := model h; isBaseUrlUpdating := v;
       isApiKeyUpdating := isApiKeyUpdating h;
       isModelUpdating := isModelUpdating h |}).

Definition setIsApiKeyUpdating (v : bool) : Eff unit :=
  setState (λ h,
    {| selectedProviderId := selectedProviderId h; baseUrl := baseUrl h;
       apiKey := apiKey h; model := model h;
       isBaseUrlUpdating := isBaseUrlUpdating h; isApiKeyUpdating := v;
       isModelUpdating := isModelUpdating h |}).

Definition setIsModelUpdating (v : bool) : Eff unit :=
  setState (λ h,
    {| selectedProviderId := selectedProviderId h; baseUrl := baseUrl h;
       apiKey := apiKey h; model := model h;
       isBaseUrlUpdating := isBaseUrlUpdating h;
       isApiKeyUpdating := isApiKeyUpdating h; isModelUpdating := v |}).

(** ** One render of the hook *)

(** The values a render reads, and that the handlers created by that render
    close over. *)
Record Render := {
  sttApiSettings : option SttApiSettings;
  r_selectedProviderId : option string
}.

Definition render (w : World) : Render :=
  {| sttApiSettings := stt_api w;
     r_selectedProviderId := selectedProviderId (hook w) |}.

(** The string a guard [if (!v) return] lets through: [v] is neither
    undefined nor the empty string. *)
Definition nonempty (v : option string) : option string :=
  match v with
  | Some s => if String.eqb s "" then None else Some s
  | None => None
  end.

(** [p.id === v] for a possibly undefined [v]. *)
Definition id_is (v : option string) (p : SttApiProvider) : bool :=
  bool_decide (Some (id p) = v).

(** [String(v)], the property key made of a possibly undefined value. *)
Definition key_of (v : option string) : string :=
  match v with
  | Some s => s
  | None => "undefined"
  end.

(** [const providers = sttApiSettings?.providers ?? []] *)
Definition r_providers (rd : Render) : list SttApiProvider :=
  match sttApiSettings rd with
  | Some s => default [] (providers s)
  | None => []
  end.

(** [const selectedProvider = providers.find((p) => p.id === selectedProviderId)] *)
Definition selectedProvider (rd : Render) : option SttApiProvider :=
  List.find (id_is (r_selectedProviderId rd)) (r_providers rd).

(** [const isCustomProvider = selectedProvider?.id === "custom"] *)
Definition isCustomProvider (rd : Render) : bool :=
  match selectedProvider rd with
  | Some p => String.eqb (id p) "custom"
  | None => false
  end.

(** [providerOptions] *)
Definition providerOptions (rd : Render) : list (string * string) :=
  (λ p, (id p, label p)) <$> r_providers rd.

(** The dependency of the effect, [sttApiSettings?.provider_id]. *)
Definition effect_dep (o : option SttApiSettings) : option string :=
  match o with
  | Some s => provider_id s
  | None => None
  end.

(** The body of the [useEffect] ("Initialize from settings"). *)
Definition initializeFromSettings (rd : Render) : Eff unit :=
  match sttApiSettings rd with
  | Some s =>
      setSelectedProviderId (provider_id s) >>
      let! ps := defined (providers s) in
      match List.find (id_is (provider_id s)) ps with
      | Some currentProvider => setBaseUrl (base_url currentProvider)
      | None => ret tt
      end >>
      let! keys := defined (api_keys s) in
      setApiKey (or_else (js_get keys (key_of (provider_id s))) "") >>
      let! ms := defined (models s) in
      setModel (or_else (js_get ms (key_of (provider_id s))) "whisper-1")
  | None => ret tt
  end.

(** ** The handlers *)

(** An asynchronous handler either returns before its [await], or issues a
    remote command and waits; [resume] is the rest of the function, run
    when the command has settled. *)
Inductive Async :=
| Returned
| Awaiting (cmd : Command) (resume : Awaited → Eff unit).

(** [handleProviderSelect] *)
Definition handleProviderSelect (rd : Render) (providerId : string)
  : Eff Async :=
  if String.eqb providerId "" then ret Returned else
  match sttApiSettings rd with
  | None => ret Returned
  | Some s =>
      ret (Awaiting (setSttApiProvider providerId) (λ r,
        try_catch
          (await r >>
           updateSetting (with_provider_id providerId s) >>
           setSelectedProviderId (Some providerId) >>
           match List.find (id_is (Some providerId)) (r_providers rd) with
           | Some provider =>
               setBaseUrl (base_url provider) >>
               let! keys := defined (api_keys s) in
               setApiKey (or_else (js_get keys providerId) "") >>
               let! ms := defined (models s) in
               setModel (or_else (js_get ms providerId) "whisper-1")
           | None => ret tt
           end)
          (console_error "Failed to set STT API provider:")))
  end.

(** [handleBaseUrlChange] *)
Definition handleBaseUrlChange (rd : Render) (newBaseUrl : string)
  : Eff Async :=
  if negb (isCustomProvider rd) then ret Returned else
  match nonempty (r_selectedProviderId rd) with
  | None => ret Returned
  | Some sel =>
      setIsBaseUrlUpdating true >>
      setBaseUrl newBaseUrl >>
      ret (Awaiting (setSttApiBaseUrl sel newBaseUrl) (λ r,
        try_catch_finally
          (await r >>
           match sttApiSettings rd with
           | Some s =>
               let! ps := defined (providers s) in
               let updatedProviders :=
                 (λ p, if String.eqb (id p) sel
                       then with_base_url newBaseUrl p else p) <$> ps in
               updateSetting (with_providers updatedProviders s)
           | None => ret tt
           end)
          (console_error "Failed to update base URL:")
          (setIsBaseUrlUpdating false)))
  end.

(** [handleApiKeyChange] *)
Definition handleApiKeyChange (rd : Render) (newApiKey : string)
  : Eff Async :=
  match nonempty (r_selectedProviderId rd) with
  | None => ret Returned
  | Some sel =>
      setIsApiKeyUpdating true >>
      setApiKey newApiKey >>
      ret (Awaiting (setSttApiKey sel newApiKey) (λ r,
        try_catch_finally
          (await r >>
           match sttApiSettings rd with
           | Some s =>
               updateSetting
                 (with_api_keys (<[sel:=newApiKey]> (default ∅ (api_keys s))) s)
           | None => ret tt
           end)
          (console_error "Failed to update API key:")
          (setIsApiKeyUpdating false)))
  end.

(** [handleModelChange] *)
Definition handleModelChange (rd : Render) (newModel : string)
  : Eff Async :=
  match nonempty (r_selectedProviderId rd) with
  | None => ret Returned
  | Some sel =>
      setIsModelUpdating true >>
      setModel newModel >>
      ret (Awaiting (setSttApiModel sel newModel) (λ r,
        try_catch_finally
          (await r >>
           match sttApiSettings rd with
           | Some s =>
               updateSetting
                 (with_models (<[sel:=newModel]> (default ∅ (models s))) s)
           | None => ret tt
           end)
          (console_error "Failed to update model:")
          (setIsModelUpdating false)))
  end.

(** [handleToggleEnabled] of [SttApiSettingsComponent]; its
    [sttApiSettings] is the same store entry, read at the same render. *)
Definition handleToggleEnabled (rd : Render) (enabled : bool) : Eff Async :=
  ret (Awaiting (setSttApiEnabled enabled) (λ r,
    try_catch
      (await r >>
       updateSetting (spread_with_enabled (sttApiSettings rd) enabled))
      (console_error "Failed to toggle STT API:"))).

(** ** Running a handler *)

Definition issue (cmd : Command) (w : World) : World :=
  {| stt_api := stt_api w; hook := hook w; issued := issued w ++ [cmd];
     console := console w; render_throws := render_throws w |}.

(** Calling a handler: it runs to its [await] (the command is then in
    flight) or to its [return]. *)
Definition invoke (h : Eff Async) (w : World)
  : World * option (Awaited → Eff unit) :=
  match h w with
  | (inr (Awaiting cmd k), w') => (issue cmd w', Some k)
  | (_, w') => (w', None)
  end.

(** The handler reaches its [await]: a remote command is in flight. *)
Definition awaits (h : Eff Async) (w : World) : Prop :=
  is_Some (invoke h w).2.

(** The component as a handler or an effect finds it: rendered, with no
    state update left in a queue. *)
Definition rendered (w : World) : World :=
  {| stt_api := stt_api w; hook := hook w; issued := issued w;
     console := console w; render_throws := false |}.

(** The render after the effect has run: React reduces the updates the
    effect queued.  An exception of the effect, or of one of these updates,
    is not caught by anything and takes the component down ([None]). *)
Definition after_effect (r : (Thrown + unit) * World) : option World :=
  match r with
  | (inr _, w') => if render_throws w' then None else Some w'
  | (inl _, _) => None
  end.

(** The render that follows a change: the effect runs when its dependency
    differs from [dep], its value at the previous render. *)
Definition rerender (dep : option string) (w : World) : option World :=
  if decide (effect_dep (stt_api w) = dep) then Some w
  else after_effect (initializeFromSettings (render w) w).

(** Resuming a handler whose command has settled, then rendering: React
    reduces the updates the handler queued, and an update that throws there
    is outside the handler's [try] and takes the component down. *)
Definition settle (k : Eff unit) (w : World) : option World :=
  let w' := (k (rendered w)).2 in
  if render_throws w' then None
  else rerender (effect_dep (stt_api w)) w'.

(** A handler called on the current render and run to completion with no
    other handler in between. *)
Definition run (h : Render → Eff Async) (r : Awaited) (w : World)
  : option World :=
  match invoke (h (render w)) w with
  | (w1, Some k) => settle (k r) w1
  | (w1, None) => Some w1
  end.

(** The first render: [useState] initial values, then the effect. *)
Definition initialHookState : HookState :=
  {| selectedProviderId := Some ""; baseUrl := ""; apiKey := ""; model := "";
     isBaseUrlUpdating := false; isApiKeyUpdating := false;
     isModelUpdating := false |}.

Definition mount (store : option SttApiSettings) : option World :=
  let w := {| stt_api := store; hook := initialHookState; issued := [];
              console := []; render_throws := false |} in
  after_effect (initializeFromSettings (render w) w).

(** ** Scenario A of the specification *)

Definition openai : SttApiProvider :=
  {| id := "openai"; label := "OpenAI"; base_url := "https://api.openai.com/v1";
     allow_base_url_edit := false |}.

Definition custom : SttApiProvider :=
  {| id := "custom"; label := "Custom"; base_url := "http://localhost:8000/v1";
     allow_base_url_edit := true |}.

Definition scenarioA : SttApiSettings :=
  {| enabled := Some false; provider_id := Some "openai";
     providers := Some [openai; custom]; api_keys := Some ∅;
     models := Some ∅ |}.

Definition scenarioA_hook : HookState :=
  {| selectedProviderId := Some "openai";
     baseUrl := "https://api.openai.com/v1"; apiKey := ""; model := "whisper-1";
     isBaseUrlUpdating := false; isApiKeyUpdating := false;
     isModelUpdating := false |}.

Definition scenarioA_world : World :=
  {| stt_api := Some scenarioA; hook := scenarioA_hook; issued := [];
     console := []; render_throws := false |}.

(** Scenario A after the user has picked the provider "custom". *)
Definition scenarioA_custom_world : World :=
  {| stt_api := Some (with_provider_id "custom" scenarioA);
     hook :=
       {| selectedProviderId := Some "custom";
          baseUrl := "http://localhost:8000/v1"; apiKey := "";
          model := "whisper-1"; isBaseUrlUpdating := false;
          isApiKeyUpdating := false; isModelUpdating := false |};
     issued := [setSttApiProvider "custom"]; console := [];
     render_throws := false |}.

(** The component rendered before the store holds an [stt_api] entry. *)
Definition unloaded_world : World :=
  {| stt_api := None; hook := initialHookState; issued := []; console := [];
     render_throws := false |}.

(** A catalog whose edit flags are the other way round: the hosted provider
    allows editing its base URL, the provider with id "custom" does not. *)
Definition editable_openai : SttApiProvider :=
  {| id := "openai"; label := "OpenAI"; base_url := "https://api.openai.com/v1";
     allow_base_url_edit := true |}.

Definition locked_custom : SttApiProvider :=
  {| id := "custom"; label := "Custom"; base_url := "http://localhost:8000/v1";
     allow_base_url_edit := false |}.

Definition swapped_flags (active : string) : SttApiSettings :=
  {| enabled := Some true; provider_id := Some active;
     providers := Some [editable_openai; locked_custom]; api_keys := Some ∅;
     models := Some ∅ |}.

Definition swapped_openai_world : World :=
  {| stt_api := Some (swapped_flags "openai");
     hook :=
       {| selectedProviderId := Some "openai";
          baseUrl := "https://api.openai.com/v1"; apiKey := "";
          model := "whisper-1"; isBaseUrlUpdating := false;
          isApiKeyUpdating := false; isModelUpdating := false |};
     issued := []; console := []; render_throws := false |}.

Definition swapped_custom_world : World :=
  {| stt_api := Some (swapped_flags "custom");
     hook :=
       {| selectedProviderId := Some "custom";
          baseUrl := "http://localhost:8000/v1"; apiKey := "";
          model := "whisper-1"; isBaseUrlUpdating := false;
          isApiKeyUpdating := false; isModelUpdating := false |};
     issued := []; console := []; render_throws := false |}.

(** Scenario A with a third provider whose id is [i]: the empty string, or
    the name of a property every object inherits. *)
Definition named (i : string) : SttApiProvider :=
  {| id := i; label := "Other"; base_url := "http://localhost:8080/v1";
     allow_base_url_edit := true |}.

Definition scenarioA_and (i : string) : SttApiSettings :=
  {| enabled := Some false; provider_id := Some "openai";
     providers := Some [openai; custom; named i]; api_keys := Some ∅;
     models := Some ∅ |}.

Definition scenarioA_and_world (i : string) : World :=
  {| stt_api := Some (scenarioA_and i); hook := scenarioA_hook; issued := [];
     console := []; render_throws := false |}.

(** ** The editable fields, and all operations *)

Inductive Field := BaseUrlField | ApiKeyField | ModelField.

Definition busy (f : Field) (h : HookState) : bool :=
  match f with
  | BaseUrlField => isBaseUrlUpdating h
  | ApiKeyField => isApiKeyUpdating h
  | ModelField => isModelUpdating h
  end.

Definition shown (f : Field) (h : HookState) : Value :=
  match f with
  | BaseUrlField => baseUrl h
  | ApiKeyField => apiKey h
  | ModelField => model h
  end.

Definition handleChange (f : Field) : Render → string → Eff Async :=
  match f with
  | BaseUrlField => handleBaseUrlChange
  | ApiKeyField => handleApiKeyChange
  | ModelField => handleModelChange
  end.

(** The condition under which the handler of a field does not return at
    once. *)
Definition guard_passes (f : Field) (rd : Render) : bool :=
  match f with
  | BaseUrlField =>
      isCustomProvider rd && bool_decide (is_Some (nonempty (r_selectedProviderId rd)))
  | ApiKeyField | ModelField =>
      bool_decide (is_Some (nonempty (r_selectedProviderId rd)))
  end.

(** The five entry points the presentation layer can call. *)
Inductive Op :=
| SelectProvider (providerId : string)
| SetField (f : Field) (v : string)
| ToggleEnabled (enabled : bool).

Definition handler (op : Op) (rd : Render) : Eff Async :=
  match op with
  | SelectProvider providerId => handleProviderSelect rd providerId
  | SetField f v => handleChange f rd v
  | ToggleEnabled e => handleToggleEnabled rd e
  end.

(** Worlds reached from a first render by operations that each run to
    completion before the next one starts. *)
Inductive reachable : World → Prop :=
| reach_mount store w :
    mount store = Some w → reachable w
| reach_run op r w w' :
    reachable w → run (handler op) r w = Some w' → reachable w'.

(** The snapshot invariant: [provider_id] names one of [providers]. *)
Definition valid (s : SttApiSettings) : Prop :=
  match provider_id s, providers s with
  | Some pid, Some ps => pid ∈ id <$> ps
  | _, _ => False
  end.

#[global] Instance valid_dec s : Decision (valid s).
Proof. unfold valid. destruct (provider_id s), (providers s); apply _. Defined.

#[global] Instance complete_dec s : Decision (complete s).
Proof. unfold complete. apply _. Defined.

(** No field is being saved. *)
Definition idle (h : HookState) : Prop := ∀ f, busy f h = false.

(** ** What the component renders *)

(** A text input of the form: the [value] and [disabled] props it gets. *)
Record InputView := {
  value : Value;
  disabled : bool
}.

(** The part of [SttApiSettingsComponent] under [isEnabled &&]: the
    provider select with its options and value, the base URL field (under
    [isCustomProvider &&]), the API key field and the model field. *)
Record FormView := {
  options : list (string * string);
  selectValue : string;
  baseUrlField : option InputView;
  apiKeyField : InputView;
  modelField : InputView
}.

Record ComponentView := {
  checked : bool;                       (* the toggle switch *)
  form : option FormView
}.

(** [const isEnabled = sttApiSettings?.enabled ?? false] *)
Definition isEnabled (o : option SttApiSettings) : bool :=
  default false (o ≫= enabled).

(** The JSX returned by [SttApiSettingsComponent]. *)
Definition SttApiSettingsComponent (w : World) : ComponentView :=
  let rd := render w in
  {| checked := isEnabled (stt_api w);
     form :=
       if isEnabled (stt_api w) then
         Some {| options := providerOptions rd;
                 selectValue := default "" (id <$> selectedProvider rd);
                 baseUrlField :=
                   if isCustomProvider rd then
                     Some {| value := baseUrl (hook w);
                             disabled := isBaseUrlUpdating (hook w) |}
                   else None;
                 apiKeyField :=
                   {| value := apiKey (hook w);
                      disabled := isApiKeyUpdating (hook w) |};
                 modelField :=
                   {| value := model (hook w);
                      disabled := isModelUpdating (hook w) |} |}
       else None |}.

(** ** Reading the commands and the console *)

(** The provider id a command is keyed by; [setSttApiEnabled] has none. *)
Definition providerId_of (cmd : Command) : option string :=
  match cmd with
  | setSttApiEnabled _ => None
  | setSttApiProvider providerId => Some providerId
  | setSttApiBaseUrl providerId _ => Some providerId
  | setSttApiKey providerId _ => Some providerId
  | setSttApiModel providerId _ => Some providerId
  end.

(** The first argument of [console.error] in the [catch] of each handler. *)
Definition failure_message (op : Op) : string :=
  match op with
  | SelectProvider _ => "Failed to set STT API provider:"
  | SetField BaseUrlField _ => "Failed to update base URL:"
  | SetField ApiKeyField _ => "Failed to update API key:"
  | SetField ModelField _ => "Failed to update model:"
  | ToggleEnabled _ => "Failed to toggle STT API:"
  end.

(** The selection of the hook is the provider id the store holds. *)
Definition in_step (w : World) : Prop :=
  ∀ s pid, stt_api w = Some s → provider_id s = Some pid →
           selectedProviderId (hook w) = Some pid.

(** The component after the toggle was switched on with nothing loaded. *)
Definition enabled_only_world : World :=
  {| stt_api := Some (spread_with_enabled None true);
     hook := initialHookState; issued := [setSttApiEnabled true];
     console := []; render_throws := false |}.

(** * Properties *)

(** ** The guards *)

Lemma nonempty_Some v sel : nonempty v = Some sel ↔ v = Some sel ∧ sel ≠ "".
Proof.
  unfold nonempty. destruct v as [s|]; [|split; [done|by intros [? _]]].
  destruct (String.eqb_spec s "") as [->|Hne].
  - split; [done|]. by intros [[= <-] ?].
  - split; [by intros [= <-]|]. by intros [[= <-] _].
Qed.

Lemma id_is_true v p : id_is v p = true ↔ v = Some (id p).
Proof. unfold id_is. rewrite bool_decide_eq_true. split; by intros ->. Qed.

Lemma selectedProvider_id rd p :
  selectedProvider rd = Some p → r_selectedProviderId rd = Some (id p).
Proof.
  unfold selectedProvider. intros H. apply find_some in H as [_ H].
  by apply id_is_true.
Qed.

Lemma selectedProvider_in rd p :
  selectedProvider rd = Some p → p ∈ r_providers rd.
Proof.
  unfold selectedProvider. intros H. apply find_some in H as [H _].
  by apply list_elem_of_In.
Qed.

Lemma isCustomProvider_true rd :
  isCustomProvider rd = true ↔
  ∃ p, selectedProvider rd = Some p ∧ id p = "custom".
Proof.
  unfold isCustomProvider. destruct (selectedProvider rd) as [p|].
  - destruct (String.eqb_spec (id p) "custom") as [Heq|Hne].
    + split; [|done]. intros _. by exists p.
    + split; [done|]. by intros (? & [= <-] & ?).
  - split; [done|]. by intros (? & ? & _).
Qed.

(** When the custom provider is selected the second half of the guard of
    [handleBaseUrlChange], [!selectedProviderId], cannot fire. *)
Lemma isCustomProvider_selected rd :
  isCustomProvider rd = true →
  nonempty (r_selectedProviderId rd) = Some "custom".
Proof.
  intros (p & Hp & Hid)%isCustomProvider_true.
  apply selectedProvider_id in Hp. rewrite Hp, Hid. reflexivity.
Qed.

Lemma guard_passes_selected f rd :
  guard_passes f rd = true →
  ∃ sel, nonempty (r_selectedProviderId rd) = Some sel.
Proof.
  destruct f; cbn; rewrite ?andb_true_iff, bool_decide_eq_true;
    intros H; [destruct H as [_ H]| |]; destruct H as [sel H]; eauto.
Qed.

Lemma find_id_is P (ps : list SttApiProvider) :
  P ∈ id <$> ps →
  ∃ p, List.find (id_is (Some P)) ps = Some p ∧ id p = P.
Proof.
  induction ps as [|q ps IH]; cbn.
  - by intros ?%elem_of_nil.
  - intros Hin. unfold id_is at 1.
    destruct (decide (Some (id q) = Some P)) as [[= Heq]|Hne].
    + exists q. by rewrite bool_decide_eq_true_2 by by rewrite Heq.
    + rewrite bool_decide_eq_false_2 by done.
      apply elem_of_cons in Hin as [->|Hin]; [done|]. by apply IH.
Qed.

(** ** Reads of plain objects *)

(** A key that is stored, or that names no inherited property, is read as
    the code expects: the stored string, or the default. *)
Lemma or_else_js_get (o : gmap string string) key d :
  (o !! key = None → member_of key = None) →
  or_else (js_get o key) d = Plain (Str (default d (o !! key))).
Proof.
  intros Hm. unfold js_get. destruct (o !! key); [done|]. by rewrite Hm.
Qed.

(** React's reducer throws nothing but a TypeError. *)
Lemma reduce_inl st a e : reduce st a = inl e → e = TypeError.
Proof. destruct a as [v|[]], st; cbn; congruence. Qed.

(** ** The effect and the render after a handler *)

(** Unfolds a handler run down to the state changes it makes. *)
Ltac handlers :=
  unfold run, invoke, settle, rendered, handler, handleChange,
    handleProviderSelect, handleBaseUrlChange, handleApiKeyChange,
    handleModelChange, handleToggleEnabled, try_catch_finally, try_catch,
    bind, ret, throw, await, defined, updateSetting, console_error,
    setSelectedProviderId, setBaseUrl, setApiKey, setModel, queue_throw,
    setIsBaseUrlUpdating, setIsApiKeyUpdating, setIsModelUpdating, setState,
    issue.

(** Splits on what React makes of each update read from a plain object. *)
Ltac reduce_cases :=
  repeat match goal with
         | |- context [reduce ?s ?a] => destruct (reduce s a); cbn
         end.

Lemma initializeFromSettings_frame rd w :
  let w' := (initializeFromSettings rd w).2 in
  stt_api w' = stt_api w ∧ issued w' = issued w ∧ console w' = console w ∧
  ∀ f, busy f (hook w') = busy f (hook w).
Proof.
  unfold initializeFromSettings.
  destruct (sttApiSettings rd) as [s|]; cbn; [|by repeat split].
  handlers; cbn.
  destruct (providers s) as [ps|]; cbn; [|by repeat split; intros []].
  destruct (List.find _ ps) as [p|]; cbn;
    (destruct (api_keys s); cbn; [|by repeat split; intros []]);
    reduce_cases;
    (destruct (models s); cbn; [|by repeat split; intros []]);
    reduce_cases; by repeat split; intros [].
Qed.

Lemma after_effect_Some r w' :
  after_effect r = Some w' → ∃ u, r = (inr u, w') ∧ render_throws w' = false.
Proof.
  destruct r as [[e|u] w1]; cbn; [done|].
  destruct (render_throws w1) eqn:Hr; [done|]. intros [= <-]. eauto.
Qed.

Lemma rerender_frame dep w w' :
  rerender dep w = Some w' →
  stt_api w' = stt_api w ∧ issued w' = issued w ∧ console w' = console w ∧
  ∀ f, busy f (hook w') = busy f (hook w).
Proof.
  unfold rerender. case_decide; [by intros [= <-]|].
  pose proof (initializeFromSettings_frame (render w) w) as Hf.
  intros (u & Hr & _)%after_effect_Some. by rewrite Hr in Hf.
Qed.

(** What the effect leaves on a snapshot that has its three containers,
    when each of its two reads finds a stored entry or nothing at all. *)
Lemma initializeFromSettings_result rd s ps keys ms w :
  sttApiSettings rd = Some s → providers s = Some ps →
  api_keys s = Some keys → models s = Some ms →
  (keys !! key_of (provider_id s) = None →
   member_of (key_of (provider_id s)) = None) →
  (ms !! key_of (provider_id s) = None →
   member_of (key_of (provider_id s)) = None) →
  initializeFromSettings rd w =
    (inr (),
     {| stt_api := stt_api w;
        hook :=
          {| selectedProviderId := provider_id s;
             baseUrl :=
               match List.find (id_is (provider_id s)) ps with
               | Some p => base_url p
               | None => baseUrl (hook w)
               end;
             apiKey := default "" (keys !! key_of (provider_id s));
             model := default "whisper-1" (ms !! key_of (provider_id s));
             isBaseUrlUpdating := isBaseUrlUpdating (hook w);
             isApiKeyUpdating := isApiKeyUpdating (hook w);
             isModelUpdating := isModelUpdating (hook w) |};
        issued := issued w; console := console w;
        render_throws := render_throws w |}).
Proof.
  intros Hrd Hps Hkeys Hms Hk Hm. unfold initializeFromSettings. rewrite Hrd.
  handlers. cbn. rewrite Hps. cbn.
  destruct (List.find _ ps); cbn; rewrite Hkeys; cbn;
    rewrite !or_else_js_get by done; cbn; rewrite Hms; cbn;
    rewrite !or_else_js_get by done; cbn; done.
Qed.

Lemma initializeFromSettings_throws rd s w :
  sttApiSettings rd = Some s →
  providers s = None ∨ api_keys s = None ∨ models s = None →
  ∃ w', initializeFromSettings rd w = (inl TypeError, w').
Proof.
  intros Hrd H. unfold initializeFromSettings. rewrite Hrd. handlers. cbn.
  destruct (providers s) as [ps|]; cbn; [|eauto].
  destruct (List.find _ ps); cbn;
    (destruct (api_keys s); cbn; [|eauto]); reduce_cases;
    (destruct (models s); cbn; [|eauto]);
    by destruct H as [|[|]].
Qed.

(** On a complete snapshot whose provider id names no inherited property
    the effect and the render after it go through. *)
Lemma settle_complete k w s' pid :
  stt_api (k (rendered w)).2 = Some s' →
  render_throws (k (rendered w)).2 = false →
  complete s' → provider_id s' = Some pid → member_of pid = None →
  ∃ w', settle k w = Some w' ∧ stt_api w' = Some s' ∧
        console w' = console (k (rendered w)).2.
Proof.
  intros Hs' Hr (_ & _ & [ps Hps] & [keys Hkeys] & [ms Hms]) Hpid Hm.
  unfold settle. cbn. rewrite Hr. unfold rerender.
  case_decide; [eauto|].
  erewrite initializeFromSettings_result;
    [|exact Hs'|done|done|done|by rewrite Hpid|by rewrite Hpid].
  cbn. rewrite Hr. eauto.
Qed.

Lemma complete_intro e pid ps keys ms :
  complete (Build_SttApiSettings (Some e) (Some pid) (Some ps) (Some keys)
              (Some ms)).
Proof. repeat split; by eexists. Qed.


(** ** The three field handlers *)

Lemma guard_fails f w v :
  guard_passes f (render w) = false →
  invoke (handleChange f (render w) v) w = (w, None).
Proof.
  intros Hg. destruct f; cbn in Hg; handlers.
  - destruct (isCustomProvider (render w)) eqn:Hc; [|done].
    apply isCustomProvider_selected in Hc. cbn in Hc. rewrite Hc in Hg.
    by vm_compute in Hg.
  - apply bool_decide_eq_false in Hg.
    destruct (nonempty _) eqn:Hn; [by destruct Hg|done].
  - apply bool_decide_eq_false in Hg.
    destruct (nonempty _) eqn:Hn; [by destruct Hg|done].
Qed.

(** Idle, then saving, then idle again, whatever the command's outcome. *)
Lemma busy_lifecycle f w v :
  idle (hook w) → guard_passes f (render w) = true →
  ∃ w1 k, invoke (handleChange f (render w) v) w = (w1, Some k) ∧
          busy f (hook w1) = true ∧
          ∀ r, ∃ w2, settle (k r) w1 = Some w2 ∧ idle (hook w2).
Proof.
  intros Hidle Hg. destruct (guard_passes_selected _ _ Hg) as [sel Hsel].
  assert (Hc : f = BaseUrlField → isCustomProvider (render w) = true).
  { intros ->. cbn in Hg. by apply andb_true_iff in Hg as [? _]. }
  pose proof (Hidle BaseUrlField) as Hb; pose proof (Hidle ApiKeyField) as Ha;
    pose proof (Hidle ModelField) as Hm; cbn in Hb, Ha, Hm.
  destruct f; handlers; rewrite ?Hc by done; rewrite Hsel; cbn;
    (do 2 eexists; split; [reflexivity|]; split; [done|]);
    intros [|e]; cbn.
  all: destruct (stt_api w) as [s|] eqn:Hs; cbn.
  all: try destruct (providers s) as [ps|] eqn:Hps; cbn.
  all: unfold rerender; cbn; rewrite ?Hs; cbn; rewrite decide_True by done.
  all: eexists; split; [reflexivity|]; by intros [].
Qed.

Lemma settle_Some k w w' :
  settle k w = Some w' →
  render_throws (k (rendered w)).2 = false ∧
  rerender (effect_dep (stt_api w)) (k (rendered w)).2 = Some w'.
Proof.
  unfold settle. cbn.
  destruct (render_throws (k (rendered w)).2); [done|]. by intros ->.
Qed.

Lemma run_idle op r w w' :
  run (handler op) r w = Some w' → idle (hook w) → idle (hook w').
Proof.
  intros Hrun Hidle. destruct op as [P|f v|b].
  - revert Hrun. unfold run, invoke, handler, handleProviderSelect.
    destruct (String.eqb P ""); [by intros [= <-]|].
    cbn. destruct (stt_api w) as [s|]; cbn; [|by intros [= <-]].
    intros [_ (_ & _ & _ & Hb)%rerender_frame]%settle_Some.
    intros f. rewrite Hb. rewrite <- (Hidle f). clear.
    handlers. destruct r; cbn; [|by destruct f].
    destruct (List.find _ _); cbn; [|by destruct f].
    destruct (api_keys s); cbn; [|by destruct f]. reduce_cases.
    all: destruct (models s); cbn; [|by destruct f]; reduce_cases.
    all: by destruct f.
  - destruct (guard_passes f (render w)) eqn:Hg.
    + destruct (busy_lifecycle f w v Hidle Hg) as (w1 & k & Hi & _ & Hk).
      revert Hrun. unfold run, handler. rewrite Hi.
      destruct (Hk r) as (w2 & -> & ?). by intros [= <-].
    + revert Hrun. unfold run, handler. rewrite guard_fails by done.
      by intros [= <-].
  - revert Hrun. unfold run, invoke, handler, handleToggleEnabled.
    cbn. intros [_ (_ & _ & _ & Hb)%rerender_frame]%settle_Some.
    intros f. rewrite Hb.
    rewrite <- (Hidle f). handlers. by destruct r, f.
Qed.

Lemma mount_idle store w : mount store = Some w → idle (hook w).
Proof.
  unfold mount. set (w0 := Build_World _ _ _ _ _).
  pose proof (initializeFromSettings_frame (render w0) w0) as (_ & _ & _ & Hb).
  intros (u & Hr & _)%after_effect_Some. rewrite Hr in Hb.
  intros f. rewrite Hb. by destruct f.
Qed.

(** Between two operations no busy flag is set. *)
Lemma reachable_idle w : reachable w → idle (hook w).
Proof.
  induction 1 as [store w Hm|op r w w' _ IH Hrun].
  - by eapply mount_idle.
  - by eapply run_idle.
Qed.


(** ** The scenarios of the specification *)

(** [initialize] on scenario A: the base URL of "openai", no key, the
    default model. *)
Example mount_scenarioA : mount (Some scenarioA) = Some scenarioA_world.
Proof. vm_compute. reflexivity. Qed.

Example scenarioA_reachable : reachable scenarioA_world.
Proof. apply (reach_mount (Some scenarioA)), mount_scenarioA. Qed.

Example scenarioA_select_custom :
  run (λ rd, handleProviderSelect rd "custom") Fulfilled scenarioA_world
    = Some scenarioA_custom_world.
Proof. vm_compute. reflexivity. Qed.

(** Scenario A, continued: the second provider gets the new URL, the first
    one is untouched. *)
Example scenarioA_select_then_edit :
  ∃ w2 s2,
    run (λ rd, handleBaseUrlChange rd "http://localhost:9000/v1") Fulfilled
      scenarioA_custom_world = Some w2 ∧
    stt_api w2 = Some s2 ∧
    providers s2 =
      Some [openai; with_base_url "http://localhost:9000/v1" custom].
Proof. do 2 eexists. vm_compute. repeat split; reflexivity. Qed.

(** Scenario B: the command fails; busy is cleared and the typed model
    stays. *)
Example scenarioB_model_kept_after_failure :
  ∃ w',
    run (λ rd, handleModelChange rd "gpt-x") (Rejected "offline")
      scenarioA_world = Some w' ∧
    isModelUpdating (hook w') = false ∧ model (hook w') = "gpt-x" ∧
    stt_api w' = Some scenarioA.
Proof. eexists. vm_compute. repeat split; reflexivity. Qed.

Example mount_unloaded : mount None = Some unloaded_world.
Proof. reflexivity. Qed.

Example mount_swapped_openai :
  mount (Some (swapped_flags "openai")) = Some swapped_openai_world.
Proof. vm_compute. reflexivity. Qed.

Example mount_swapped_custom :
  mount (Some (swapped_flags "custom")) = Some swapped_custom_world.
Proof. vm_compute. reflexivity. Qed.

(** The object the toggle leaves behind when nothing was loaded makes the
    effect of the next first render throw. *)
Example mount_enabled_only_throws :
  mount (Some (spread_with_enabled None true)) = None.
Proof. reflexivity. Qed.

(** A handler commits the snapshot of the render that created it.  When
    another handler commits while the first one waits, the first one's
    commit puts the older snapshot back: here the model saved in between is
    gone from the store. *)
Example commit_uses_the_snapshot_of_its_render :
  ∃ w1 k w2 w3,
    invoke (handleApiKeyChange (render scenarioA_world) "sk-1")
      scenarioA_world = (w1, Some k) ∧
    run (λ rd, handleModelChange rd "gpt-x") Fulfilled w1 = Some w2 ∧
    stt_api w2 = Some (with_models {[ "openai" := "gpt-x" ]} scenarioA) ∧
    settle (k Fulfilled) w2 = Some w3 ∧
    stt_api w3 = Some (with_api_keys {[ "openai" := "sk-1" ]} scenarioA).
Proof.
  do 4 eexists. split; [reflexivity|].
  split; [vm_compute; reflexivity|]. split; [vm_compute; reflexivity|].
  split; [vm_compute; reflexivity|]. vm_compute. reflexivity.
Qed.

(** A provider id that names an inherited property and has no stored key:
    the read finds the inherited function, [??] does not fire, and React
    calls the function as a state updater.  With "toString" the form shows
    "[object Undefined]" as key and as model. *)
Example select_toString :
  ∃ w',
    run (λ rd, handleProviderSelect rd "toString") Fulfilled
      (scenarioA_and_world "toString") = Some w' ∧
    apiKey (hook w') = Str "[object Undefined]" ∧
    model (hook w') = Str "[object Undefined]".
Proof. eexists. split; [vm_compute; reflexivity|]. done. Qed.

(** With "valueOf" the updater throws when React renders: the handler has
    returned, nothing was caught, and the component is gone. *)
Example select_valueOf :
  run (λ rd, handleProviderSelect rd "valueOf") Fulfilled
    (scenarioA_and_world "valueOf") = None.
Proof. vm_compute. reflexivity. Qed.

(** A stored key hides the inherited property. *)
Example select_valueOf_with_stored_entries :
  ∃ w',
    run (λ rd, handleProviderSelect rd "valueOf") Fulfilled
      {| stt_api :=
           Some (with_models {[ "valueOf" := "m-1" ]}
                   (with_api_keys {[ "valueOf" := "sk-1" ]}
                      (scenarioA_and "valueOf")));
         hook := scenarioA_hook; issued := []; console := [];
         render_throws := false |} = Some w' ∧
    apiKey (hook w') = Str "sk-1" ∧ model (hook w') = Str "m-1".
Proof. eexists. split; [vm_compute; reflexivity|]. done. Qed.

(** The same reads in the effect, on a first render. *)
Example mount_toString :
  ∃ w',
    mount (Some (with_provider_id "toString" (scenarioA_and "toString")))
      = Some w' ∧
    apiKey (hook w') = Str "[object Undefined]" ∧
    model (hook w') = Str "[object Undefined]".
Proof. eexists. split; [vm_compute; reflexivity|]. done. Qed.

Example mount_valueOf :
  mount (Some (with_provider_id "valueOf" (scenarioA_and "valueOf"))) = None.
Proof. vm_compute. reflexivity. Qed.

(** [constructor] is [Object]: the state becomes a String object;
    [isPrototypeOf] answers false; [__proto__] is [Object.prototype]. *)
Example mount_other_inherited_names :
  (∃ w', mount (Some (with_provider_id "constructor"
                        (scenarioA_and "constructor"))) = Some w' ∧
         apiKey (hook w') = StringObject "" ∧
         model (hook w') = StringObject "") ∧
  (∃ w', mount (Some (with_provider_id "isPrototypeOf"
                        (scenarioA_and "isPrototypeOf"))) = Some w' ∧
         apiKey (hook w') = JsFalse) ∧
  (∃ w', mount (Some (with_provider_id "__proto__"
                        (scenarioA_and "__proto__"))) = Some w' ∧
         apiKey (hook w') = ObjectPrototype).
Proof.
  repeat split; eexists; (split; [vm_compute; reflexivity|]); done.
Qed.
(** ** The claims *)

(** C1, as the claim states it, fails: with the edit flags the other way
    round, [handleBaseUrlChange] does nothing for the selected provider
    "openai" although its [allow_base_url_edit] is true, and it goes ahead
    for the selected provider "custom" although its flag is false. *)
Lemma baseUrl_guard_ignores_edit_flag :
  (selectedProvider (render swapped_openai_world) = Some editable_openai ∧
   allow_base_url_edit editable_openai = true ∧
   run (λ rd, handleBaseUrlChange rd "http://localhost:9000/v1") Fulfilled
     swapped_openai_world = Some swapped_openai_world) ∧
  (selectedProvider (render swapped_custom_world) = Some locked_custom ∧
   allow_base_url_edit locked_custom = false ∧
   ∃ w',
     run (λ rd, handleBaseUrlChange rd "http://localhost:9000/v1") Fulfilled
       swapped_custom_world = Some w' ∧
     issued w' = [setSttApiBaseUrl "custom" "http://localhost:9000/v1"] ∧
     baseUrl (hook w') = "http://localhost:9000/v1" ∧
     stt_api w' ≠ stt_api swapped_custom_world).
Proof.
  split; [by vm_compute|].
  do 2 (split; [reflexivity|]). eexists.
  split; [vm_compute; reflexivity|]. do 2 (split; [reflexivity|]).
  intros H. vm_compute in H. discriminate H.
Qed.

(** C1, amended: the guard of [handleBaseUrlChange] is the id of the
    selected provider being "custom"; [allow_base_url_edit] is not read.
    When the selected provider has id "custom" the handler sets busy, shows
    the value and issues the command; when no provider of the snapshot has
    the selected id, or that provider has another id, the handler changes
    nothing and issues nothing.  On a catalog where the flag is true exactly
    for the provider "custom" this is the guard of the claim. *)
Theorem baseUrl_guard_is_custom_id w v r :
  (∀ p, selectedProvider (render w) = Some p → id p = "custom" →
     ∃ w1 k,
       invoke (handleBaseUrlChange (render w) v) w = (w1, Some k) ∧
       stt_api w1 = stt_api w ∧
       issued w1 = issued w ++ [setSttApiBaseUrl "custom" v] ∧
       baseUrl (hook w1) = v ∧ isBaseUrlUpdating (hook w1) = true) ∧
  ((∀ p, selectedProvider (render w) = Some p → id p ≠ "custom") →
     invoke (handleBaseUrlChange (render w) v) w = (w, None) ∧
     run (λ rd, handleBaseUrlChange rd v) r w = Some w) ∧
  ((∀ p, p ∈ r_providers (render w) →
         allow_base_url_edit p = true ↔ id p = "custom") →
   ∀ p, selectedProvider (render w) = Some p →
     (allow_base_url_edit p = false →
        run (λ rd, handleBaseUrlChange rd v) r w = Some w) ∧
     (allow_base_url_edit p = true →
        awaits (handleBaseUrlChange (render w) v) w)).
Proof.
  assert (Hyes : ∀ p, selectedProvider (render w) = Some p →
    id p = "custom" →
    ∃ w1 k,
      invoke (handleBaseUrlChange (render w) v) w = (w1, Some k) ∧
      stt_api w1 = stt_api w ∧
      issued w1 = issued w ++ [setSttApiBaseUrl "custom" v] ∧
      baseUrl (hook w1) = v ∧ isBaseUrlUpdating (hook w1) = true).
  { intros p Hp Hid.
    assert (Hc : isCustomProvider (render w) = true)
      by (apply isCustomProvider_true; eauto).
    unfold invoke, handleBaseUrlChange.
    rewrite Hc, (isCustomProvider_selected _ Hc). cbn.
    do 2 eexists. split; [reflexivity|]. by cbn. }
  assert (Hno : (∀ p, selectedProvider (render w) = Some p →
                      id p ≠ "custom") →
    invoke (handleBaseUrlChange (render w) v) w = (w, None) ∧
    run (λ rd, handleBaseUrlChange rd v) r w = Some w).
  { intros Hn.
    assert (Hc : isCustomProvider (render w) = false).
    { apply not_true_is_false.
      intros (p & Hp & Hid)%isCustomProvider_true. by eapply Hn. }
    unfold run, invoke, handleBaseUrlChange. by rewrite Hc. }
  split; [exact Hyes|]. split; [exact Hno|].
  intros Hflag p Hp. pose proof (selectedProvider_in _ _ Hp) as Hin.
  split.
  - intros Hoff. apply Hno. intros q Hq Hid.
    assert (q = p) as -> by congruence.
    apply Hflag in Hid; [congruence|done].
  - intros Hon. apply Hflag in Hon; [|done].
    destruct (Hyes p Hp Hon) as (w1 & k & Hi & _).
    unfold awaits. rewrite Hi. by eexists.
Qed.


(** C2, amended: on a complete snapshot that satisfies [valid], every
    operation run to completion leaves a complete snapshot that satisfies
    [valid], provided [handleProviderSelect] is called with the id of one of
    the providers or its command fails.  When its command fails, the
    committed [provider_id] and the hook state are unchanged. *)



(** What a fulfilled [handleProviderSelect] leaves, for a listed non-empty
    id whose reads of [api_keys] and [models] find a stored entry or
    nothing at all. *)
Lemma run_select_fulfilled w s ps keys ms P p :
  stt_api w = Some s → providers s = Some ps →
  api_keys s = Some keys → models s = Some ms →
  P ≠ "" → List.find (id_is (Some P)) ps = Some p →
  (keys !! P = None → member_of P = None) →
  (ms !! P = None → member_of P = None) →
  run (λ rd, handleProviderSelect rd P) Fulfilled w =
    Some {| stt_api := Some (with_provider_id P s);
            hook :=
              {| selectedProviderId := Some P; baseUrl := base_url p;
                 apiKey := default "" (keys !! P);
                 model := default "whisper-1" (ms !! P);
                 isBaseUrlUpdating := isBaseUrlUpdating (hook w);
                 isApiKeyUpdating := isApiKeyUpdating (hook w);
                 isModelUpdating := isModelUpdating (hook w) |};
            issued := issued w ++ [setSttApiProvider P];
            console := console w; render_throws := false |}.
Proof.
  intros Hs Hps Hkeys Hms HP Hfind Hk Hm. handlers.
  destruct (String.eqb_spec P "") as [|_]; [done|]. cbn. rewrite Hs. cbn.
  unfold r_providers. cbn. rewrite Hs, Hps. cbn. rewrite Hfind. cbn.
  rewrite Hkeys. cbn. rewrite or_else_js_get by done. cbn.
  rewrite Hms. cbn. rewrite or_else_js_get by done. cbn.
  unfold rerender. case_decide; [done|].
  unfold initializeFromSettings. handlers. cbn. rewrite Hps. cbn.
  rewrite Hfind. cbn. rewrite Hkeys. cbn. rewrite or_else_js_get by done.
  cbn. rewrite Hms. cbn. rewrite or_else_js_get by done. cbn. done.
Qed.

(** C3, as the claim states it, fails for two kinds of listed id.  Listed
    "toString" with no stored key or model: the reads find the inherited
    function, the fallbacks do not fire, and the handler ends with
    "[object Undefined]" as key and as model.  Listed empty id: the handler
    returns at its guard and the selection stays. *)
Lemma selectProvider_listed_ids_that_do_not_resolve :
  ("toString" ∈ id <$> [openai; custom; named "toString"] ∧
   ∃ w',
     run (λ rd, handleProviderSelect rd "toString") Fulfilled
       (scenarioA_and_world "toString") = Some w' ∧
     issued w' = [setSttApiProvider "toString"] ∧
     selectedProviderId (hook w') = Some "toString" ∧
     apiKey (hook w') = Str "[object Undefined]" ∧
     apiKey (hook w') ≠ Str "" ∧
     model (hook w') = Str "[object Undefined]" ∧
     model (hook w') ≠ Str "whisper-1") ∧
  ("" ∈ id <$> [openai; custom; named ""] ∧
   run (λ rd, handleProviderSelect rd "") Fulfilled (scenarioA_and_world "")
     = Some (scenarioA_and_world "") ∧
   selectedProviderId (hook (scenarioA_and_world "")) = Some "openai").
Proof.
  split.
  - split; [cbn; do 3 constructor|]. eexists.
    split; [vm_compute; reflexivity|]. by cbn.
  - split; [cbn; do 3 constructor|]. split; reflexivity.
Qed.

(** C3, amended: for a non-empty id [P] of the provider list whose key and
    model are stored or which names no inherited object property, when the
    command of [handleProviderSelect] is fulfilled the handler ends with
    [P] committed and selected, the base URL of [P]'s descriptor, the stored
    key of [P] or the empty string, and the stored model of [P] or
    "whisper-1". *)
Theorem selectProvider_resolves w s ps keys ms P :
  stt_api w = Some s → providers s = Some ps →
  api_keys s = Some keys → models s = Some ms →
  P ∈ id <$> ps → P ≠ "" →
  (keys !! P = None → member_of P = None) →
  (ms !! P = None → member_of P = None) →
  ∃ w' p,
    run (λ rd, handleProviderSelect rd P) Fulfilled w = Some w' ∧
    issued w' = issued w ++ [setSttApiProvider P] ∧
    List.find (id_is (Some P)) ps = Some p ∧ id p = P ∧
    effect_dep (stt_api w') = Some P ∧
    selectedProviderId (hook w') = Some P ∧
    baseUrl (hook w') = base_url p ∧
    apiKey (hook w') = default "" (keys !! P) ∧
    model (hook w') = default "whisper-1" (ms !! P).
Proof.
  intros Hs Hps Hkeys Hms Hin HP Hk Hm.
  destruct (find_id_is _ _ Hin) as (p & Hfind & Hid).
  eexists; exists p. split; [by eapply run_select_fulfilled|].
  by repeat split.
Qed.

Lemma selectProvider_resolves_witness :
  ∃ w' p,
    run (λ rd, handleProviderSelect rd "custom") Fulfilled scenarioA_world
      = Some w' ∧
    issued w' = issued scenarioA_world ++ [setSttApiProvider "custom"] ∧
    List.find (id_is (Some "custom")) [openai; custom] = Some p ∧
    id p = "custom" ∧
    effect_dep (stt_api w') = Some "custom" ∧
    selectedProviderId (hook w') = Some "custom" ∧
    baseUrl (hook w') = base_url p ∧
    apiKey (hook w') = default "" ((∅ : gmap string string) !! "custom") ∧
    model (hook w') =
      default "whisper-1" ((∅ : gmap string string) !! "custom").
Proof.
  apply (selectProvider_resolves scenarioA_world scenarioA [openai; custom]
           ∅ ∅ "custom").
  - reflexivity.
  - reflexivity.
  - reflexivity.
  - reflexivity.
  - cbn. do 2 constructor.
  - discriminate.
  - intros _. reflexivity.
  - intros _. reflexivity.
Defined.

(** C4, as the claim states it, fails: [setSelectedProviderId] comes after
    the [await], inside the [try].  On scenario A with "openai" selected,
    selecting "custom" with a command that is rejected logs the failure and
    leaves "openai" selected. *)
Lemma selectProvider_rejected_keeps_old_selection :
  ∃ w',
    run (λ rd, handleProviderSelect rd "custom") (Rejected "offline")
      scenarioA_world = Some w' ∧
    selectedProviderId (hook w') = Some "openai" ∧
    selectedProviderId (hook w') ≠ Some "custom" ∧
    console w' =
      [("Failed to set STT API provider:", RemoteError "offline")].
Proof. eexists. split; [vm_compute; reflexivity|]. by cbn. Qed.

(** C4, amended: when the command of [handleProviderSelect] is rejected,
    the handler logs the failure and changes neither the hook state nor the
    store: the selected provider id is the one from before the call. *)
Theorem selectProvider_rejected_changes_nothing w P e :
  ∃ w',
    run (λ rd, handleProviderSelect rd P) (Rejected e) w = Some w' ∧
    hook w' = hook w ∧ stt_api w' = stt_api w ∧
    (awaits (handleProviderSelect (render w) P) w →
       issued w' = issued w ++ [setSttApiProvider P] ∧
       console w' =
         console w ++ [("Failed to set STT API provider:", RemoteError e)]).
Proof.
  unfold awaits. handlers. destruct (String.eqb P ""); cbn.
  - exists w. repeat split; try done; by intros [? [=]].
  - destruct (stt_api w) as [s|] eqn:Hs; cbn.
    + unfold rerender. cbn. rewrite decide_True by done.
      eexists. split; [reflexivity|]. cbn. by repeat split.
    + exists w. repeat split; try done; by intros [? [=]].
Qed.

(** C5: a successful [handleBaseUrlChange] commits a snapshot that differs
    from the previous one only in [base_url] of the providers whose id is
    the selected one: the list keeps its length and order, every other
    provider is the same object, the patched one keeps id, label and flag,
    and [enabled], [provider_id], [api_keys] and [models] are unchanged. *)
Theorem baseUrl_commit_patches_one_provider w v s ps :
  stt_api w = Some s → providers s = Some ps →
  guard_passes BaseUrlField (render w) = true →
  ∃ sel w' s' ps',
    nonempty (selectedProviderId (hook w)) = Some sel ∧
    run (λ rd, handleBaseUrlChange rd v) Fulfilled w = Some w' ∧
    stt_api w' = Some s' ∧
    enabled s' = enabled s ∧ provider_id s' = provider_id s ∧
    api_keys s' = api_keys s ∧ models s' = models s ∧
    providers s' = Some ps' ∧ length ps' = length ps ∧
    ∀ i p, ps !! i = Some p →
      ∃ p', ps' !! i = Some p' ∧
            id p' = id p ∧ label p' = label p ∧
            allow_base_url_edit p' = allow_base_url_edit p ∧
            (id p ≠ sel → p' = p) ∧ (id p = sel → base_url p' = v).
Proof.
  intros Hs Hps Hg. cbn in Hg. apply andb_true_iff in Hg as [Hc _].
  pose proof (isCustomProvider_selected _ Hc) as Hsel. cbn in Hsel.
  exists "custom". handlers. rewrite Hc. cbn. rewrite Hsel. cbn.
  rewrite Hs. cbn. rewrite Hps. cbn.
  unfold rerender; cbn. rewrite decide_True by done.
  do 3 eexists. split; [done|]. split; [reflexivity|]. cbn.
  split; [reflexivity|]. cbn. do 5 (split; [reflexivity|]).
  split; [by rewrite length_fmap|].
  intros i p Hi. rewrite list_lookup_fmap, Hi. cbn.
  destruct (String.eqb_spec (id p) "custom") as [Heq|Hne];
    eexists; (split; [reflexivity|]); cbn; by repeat split.
Qed.

Lemma baseUrl_commit_patches_one_provider_witness :
  ∃ sel w' s' ps',
    nonempty (selectedProviderId (hook scenarioA_custom_world)) = Some sel ∧
    run (λ rd, handleBaseUrlChange rd "http://localhost:9000/v1") Fulfilled
      scenarioA_custom_world = Some w' ∧
    stt_api w' = Some s' ∧
    enabled s' = enabled (with_provider_id "custom" scenarioA) ∧
    provider_id s' = provider_id (with_provider_id "custom" scenarioA) ∧
    api_keys s' = api_keys (with_provider_id "custom" scenarioA) ∧
    models s' = models (with_provider_id "custom" scenarioA) ∧
    providers s' = Some ps' ∧ length ps' = length [openai; custom] ∧
    ∀ i p, [openai; custom] !! i = Some p →
      ∃ p', ps' !! i = Some p' ∧
            id p' = id p ∧ label p' = label p ∧
            allow_base_url_edit p' = allow_base_url_edit p ∧
            (id p ≠ sel → p' = p) ∧
            (id p = sel → base_url p' = "http://localhost:9000/v1").
Proof.
  apply (baseUrl_commit_patches_one_provider scenarioA_custom_world
           "http://localhost:9000/v1" (with_provider_id "custom" scenarioA)
           [openai; custom]); reflexivity.
Defined.

(** C6: for [handleBaseUrlChange], [handleApiKeyChange] and
    [handleModelChange], called between two operations with the guard
    passing: the busy flag of the field is false before the call, true while
    the command is in flight, and false once the handler has been resumed,
    whether the command was fulfilled or rejected. *)
Theorem busy_flag_between_invocation_and_resolution f w v :
  reachable w → guard_passes f (render w) = true →
  busy f (hook w) = false ∧
  ∃ w1 k,
    invoke (handleChange f (render w) v) w = (w1, Some k) ∧
    busy f (hook w1) = true ∧
    ∀ r, ∃ w2, settle (k r) w1 = Some w2 ∧ busy f (hook w2) = false.
Proof.
  intros Hidle%reachable_idle Hg. split; [apply Hidle|].
  destruct (busy_lifecycle f w v Hidle Hg) as (w1 & k & Hi & Hb & Hk).
  exists w1, k. do 2 (split; [done|]). intros r.
  destruct (Hk r) as (w2 & Hs & Hi2). eauto.
Qed.

Lemma busy_flag_between_invocation_and_resolution_witness :
  busy ApiKeyField (hook scenarioA_world) = false ∧
  ∃ w1 k,
    invoke (handleChange ApiKeyField (render scenarioA_world) "sk-1")
      scenarioA_world = (w1, Some k) ∧
    busy ApiKeyField (hook w1) = true ∧
    ∀ r, ∃ w2, settle (k r) w1 = Some w2 ∧ busy ApiKeyField (hook w2) = false.
Proof.
  apply (busy_flag_between_invocation_and_resolution ApiKeyField
           scenarioA_world "sk-1").
  - apply (reach_mount (Some scenarioA)). vm_compute. reflexivity.
  - reflexivity.
Defined.

(** C7: with a provider selected, as soon as [handleApiKeyChange v] has
    been called, while its command is still in flight, the hook state shows
    [v] as the API key. *)
Theorem apiKey_shown_before_resolution w v sel :
  selectedProviderId (hook w) = Some sel → sel ≠ "" →
  ∃ w1 k,
    invoke (handleApiKeyChange (render w) v) w = (w1, Some k) ∧
    issued w1 = issued w ++ [setSttApiKey sel v] ∧
    apiKey (hook w1) = v.
Proof.
  intros Hsel Hne.
  assert (Hn : nonempty (r_selectedProviderId (render w)) = Some sel)
    by (by apply nonempty_Some).
  handlers. rewrite Hn. cbn. eauto.
Qed.

Lemma apiKey_shown_before_resolution_witness :
  ∃ w1 k,
    invoke (handleApiKeyChange (render scenarioA_world) "sk-1")
      scenarioA_world = (w1, Some k) ∧
    issued w1 = issued scenarioA_world ++ [setSttApiKey "openai" "sk-1"] ∧
    apiKey (hook w1) = "sk-1".
Proof.
  apply (apiKey_shown_before_resolution scenarioA_world "sk-1" "openai").
  - reflexivity.
  - discriminate.
Defined.

(** C8, as the claim states it, fails: when the first command is rejected
    and the second is fulfilled, the second call commits the model, so the
    snapshot after the second call is not the one after the first. *)
Lemma setModel_retry_after_failure_commits :
  ∃ w1 w2,
    run (λ rd, handleModelChange rd "gpt-x") (Rejected "offline")
      scenarioA_world = Some w1 ∧
    run (λ rd, handleModelChange rd "gpt-x") Fulfilled w1 = Some w2 ∧
    hook w2 = hook w1 ∧
    stt_api w1 = Some scenarioA ∧
    stt_api w2 = Some (with_models {[ "openai" := "gpt-x" ]} scenarioA) ∧
    stt_api w2 ≠ stt_api w1.
Proof.
  do 2 eexists. split; [vm_compute; reflexivity|].
  split; [vm_compute; reflexivity|]. do 2 (split; [reflexivity|]).
  split; [vm_compute; reflexivity|]. intros H. vm_compute in H.
  discriminate H.
Qed.

(** C8, amended: two successive calls of [handleModelChange m], each
    resumed before the next starts, leave the hook state after the second
    call equal to the one after the first; the snapshot is equal too unless
    the first command was rejected and the second fulfilled.  With a
    provider selected the two calls issue two commands; with none selected
    they issue none. *)
Theorem setModel_twice w m r1 r2 :
  ∃ w1 w2,
    run (λ rd, handleModelChange rd m) r1 w = Some w1 ∧
    run (λ rd, handleModelChange rd m) r2 w1 = Some w2 ∧
    hook w2 = hook w1 ∧
    (r1 = Fulfilled ∨ r2 ≠ Fulfilled → stt_api w2 = stt_api w1) ∧
    (∀ sel, nonempty (selectedProviderId (hook w)) = Some sel →
       issued w2 =
         issued w ++ [setSttApiModel sel m; setSttApiModel sel m]) ∧
    (nonempty (selectedProviderId (hook w)) = None → issued w2 = issued w).
Proof.
  handlers. cbn.
  destruct (nonempty (selectedProviderId (hook w))) as [sel|] eqn:Hsel; cbn.
  - unfold rerender.
    destruct r1 as [|e1], r2 as [|e2], (stt_api w) as [s|] eqn:Hs; cbn;
      rewrite ?decide_True by done; cbn;
      (eexists; eexists; split; [reflexivity|]); cbn; rewrite Hsel; cbn;
      rewrite ?decide_True by done;
      (split; [reflexivity|]); cbn;
      (split; [reflexivity|]).
    all: split; [|split; [intros ? [= <-]; by rewrite <- app_assoc|done]].
    all: try done.
    + intros _. unfold with_models; cbn. by rewrite insert_insert_eq.
    + by intros [|].
  - exists w, w. rewrite Hsel. by repeat split.
Qed.

(** C9: when the command of [handleBaseUrlChange], [handleApiKeyChange] or
    [handleModelChange] is rejected, the store entry is the one from before
    the call, while the hook state keeps the value that was typed (when the
    guard let the call through). *)
Theorem rejected_command_leaves_store f w v e :
  ∃ w', run (λ rd, handleChange f rd v) (Rejected e) w = Some w' ∧
        stt_api w' = stt_api w ∧
        (guard_passes f (render w) = true → shown f (hook w') = v).
Proof.
  destruct (guard_passes f (render w)) eqn:Hg.
  - destruct (guard_passes_selected _ _ Hg) as [sel Hsel].
    assert (Hc : f = BaseUrlField → isCustomProvider (render w) = true).
    { intros ->. cbn in Hg. by apply andb_true_iff in Hg as [? _]. }
    destruct f; handlers; rewrite ?Hc by done; rewrite Hsel; cbn;
      unfold rerender; cbn; rewrite decide_True by done;
      (eexists; split; [reflexivity|]; by split).
  - unfold run. rewrite guard_fails by done.
    exists w. by repeat split.
Qed.

(** C10: [handleToggleEnabled] has no guard.  With no [stt_api] entry in
    the store it still issues [setSttApiEnabled], and when that is fulfilled
    it stores an object whose only field is [enabled]. *)
Theorem toggle_without_snapshot w b :
  stt_api w = None →
  ∃ w1 k,
    invoke (handleToggleEnabled (render w) b) w = (w1, Some k) ∧
    issued w1 = issued w ++ [setSttApiEnabled b] ∧
    ∃ w2,
      settle (k Fulfilled) w1 = Some w2 ∧
      stt_api w2 =
        Some {| enabled := Some b; provider_id := None; providers := None;
                api_keys := None; models := None |}.
Proof.
  intros Hs. handlers. cbn. do 2 eexists. split; [reflexivity|].
  split; [done|]. cbn. rewrite Hs. cbn.
  unfold rerender; cbn. rewrite decide_True by done. eauto.
Qed.

Lemma toggle_without_snapshot_witness :
  ∃ w1 k,
    invoke (handleToggleEnabled (render unloaded_world) true) unloaded_world
      = (w1, Some k) ∧
    issued w1 = issued unloaded_world ++ [setSttApiEnabled true] ∧
    ∃ w2,
      settle (k Fulfilled) w1 = Some w2 ∧
      stt_api w2 =
        Some {| enabled := Some true; provider_id := None; providers := None;
                api_keys := None; models := None |}.
Proof. apply (toggle_without_snapshot unloaded_world true). reflexivity. Defined.

(** ** The first render and the effect *)

(** X1. The first render on a snapshot that has its provider id and its
    three containers, when the key and the model of that provider are
    stored or its id names no inherited object property: the effect does
    not throw, issues and logs nothing, and leaves the hook with the stored
    provider id selected, the stored key of that provider or the empty
    string, its stored model or "whisper-1", and the base URL of the first
    provider with that id; when no provider has that id the base URL stays
    empty. *)
Theorem mount_derives_the_form s pid ps keys ms :
  provider_id s = Some pid → providers s = Some ps →
  api_keys s = Some keys → models s = Some ms →
  (keys !! pid = None → member_of pid = None) →
  (ms !! pid = None → member_of pid = None) →
  ∃ w,
    mount (Some s) = Some w ∧
    stt_api w = Some s ∧ issued w = [] ∧ console w = [] ∧ idle (hook w) ∧
    selectedProviderId (hook w) = Some pid ∧
    apiKey (hook w) = default "" (keys !! pid) ∧
    model (hook w) = default "whisper-1" (ms !! pid) ∧
    (∀ p, List.find (id_is (Some pid)) ps = Some p →
          baseUrl (hook w) = base_url p) ∧
    (pid ∉ id <$> ps → baseUrl (hook w) = "").
Proof.
  intros Hpid Hps Hkeys Hms Hk Hm. unfold mount.
  erewrite initializeFromSettings_result;
    [|reflexivity|done|done|done|by rewrite Hpid|by rewrite Hpid].
  cbn. eexists. split; [reflexivity|]. cbn. rewrite Hpid. cbn.
  do 3 (split; [done|]). split; [by intros []|].
  do 3 (split; [done|]). split.
  - by intros p ->.
  - intros Hnot. destruct (List.find _ ps) as [p|] eqn:Hf; [|done].
    apply find_some in Hf as [Hin Hid]. apply id_is_true in Hid.
    destruct Hnot. injection Hid as ->. apply list_elem_of_fmap.
    exists p. split; [done|]. by apply list_elem_of_In.
Qed.

Lemma mount_derives_the_form_witness :
  ∃ w,
    mount (Some scenarioA) = Some w ∧
    stt_api w = Some scenarioA ∧ issued w = [] ∧ console w = [] ∧
    idle (hook w) ∧
    selectedProviderId (hook w) = Some "openai" ∧
    apiKey (hook w) = default "" ((∅ : gmap string string) !! "openai") ∧
    model (hook w) =
      default "whisper-1" ((∅ : gmap string string) !! "openai") ∧
    (∀ p, List.find (id_is (Some "openai")) [openai; custom] = Some p →
          baseUrl (hook w) = base_url p) ∧
    ("openai" ∉ id <$> [openai; custom] → baseUrl (hook w) = "").
Proof.
  apply (mount_derives_the_form scenarioA "openai" [openai; custom] ∅ ∅);
    try reflexivity; intros _; reflexivity.
Defined.

(** X2. The first render on a stored object throws exactly when the object
    lacks [providers], [api_keys] or [models] (the effect reads [.find] or
    an index of an undefined value), or when the read of [api_keys] or of
    [models] at the provider id hands React an inherited function whose
    call throws.  A missing [enabled] or [provider_id] does not make it
    throw. *)
Theorem mount_throws_iff s :
  mount (Some s) = None ↔
  providers s = None ∨ api_keys s = None ∨ models s = None ∨
  (∃ keys, api_keys s = Some keys ∧
           reduce "" (or_else (js_get keys (key_of (provider_id s))) "")
             = inl TypeError) ∨
  (∃ ms, models s = Some ms ∧
         reduce "" (or_else (js_get ms (key_of (provider_id s))) "whisper-1")
           = inl TypeError).
Proof.
  unfold mount, initializeFromSettings. handlers. cbn.
  destruct (providers s) as [ps|] eqn:Hps; cbn; [|split; [by left|done]].
  destruct (api_keys s) as [keys|] eqn:Hkeys; cbn;
    [|destruct (List.find _ ps); cbn; (split; [by right; left|done])].
  destruct (models s) as [ms|] eqn:Hms; cbn.
  2:{ destruct (List.find _ ps); cbn;
        destruct (reduce _ (or_else (js_get keys _) "")); cbn;
        (split; [by right; right; left|done]). }
  destruct (List.find _ ps); cbn;
    destruct (reduce _ (or_else (js_get keys _) "")) as [e1|v1] eqn:H1; cbn;
    try (apply reduce_inl in H1 as H1'; subst e1);
    destruct (reduce _ (or_else (js_get ms _) "whisper-1")) as [e2|v2] eqn:H2;
    try (apply reduce_inl in H2 as H2'; subst e2);
    cbn; split; try done.
  all: try (intros _; right; right; right; left; by exists keys).
  all: try (intros _; right; right; right; right; by exists ms).
  all: intros [|[|[|[(k' & [= <-] & Hk)|(m' & [= <-] & Hk)]]]]; congruence.
Qed.

(** X3. With no [stt_api] entry loaded, switching the toggle stores an
    object that holds only [enabled]; selecting a provider afterwards, with
    a command that is fulfilled, commits the id on that object, the effect
    re-runs on the changed [provider_id] and throws on the missing
    [providers]: the component does not survive the second operation. *)
Theorem select_after_toggle_without_snapshot_throws w b P :
  stt_api w = None → P ≠ "" →
  ∃ w1,
    run (λ rd, handleToggleEnabled rd b) Fulfilled w = Some w1 ∧
    stt_api w1 = Some (spread_with_enabled None b) ∧
    run (λ rd, handleProviderSelect rd P) Fulfilled w1 = None.
Proof.
  intros Hs HP. handlers. cbn. rewrite Hs. cbn. unfold rerender. cbn.
  rewrite decide_True by done. eexists. split; [reflexivity|]. cbn.
  split; [reflexivity|].
  destruct (String.eqb_spec P "") as [|_]; [done|]. cbn.
  by rewrite decide_False.
Qed.

Lemma select_after_toggle_without_snapshot_throws_witness :
  ∃ w1,
    run (λ rd, handleToggleEnabled rd true) Fulfilled unloaded_world
      = Some w1 ∧
    stt_api w1 = Some (spread_with_enabled None true) ∧
    run (λ rd, handleProviderSelect rd "custom") Fulfilled w1 = None.
Proof.
  apply (select_after_toggle_without_snapshot_throws unloaded_world true
           "custom"); [reflexivity|discriminate].
Defined.

(** ** The selection follows the store *)

Lemma effect_in_step w u w' :
  initializeFromSettings (render w) w = (inr u, w') → in_step w'.
Proof.
  intros Hr s pid Hs Hpid. revert Hr Hs. unfold initializeFromSettings. cbn.
  destruct (stt_api w) as [s0|] eqn:Hs0; cbn.
  - handlers. cbn. destruct (providers s0); cbn; [|done].
    destruct (List.find _ _); cbn; (destruct (api_keys s0); cbn; [|done]);
      reduce_cases; (destruct (models s0); cbn; [|done]); reduce_cases;
      intros Hr; injection Hr as _ <-; cbn; rewrite Hs0; by intros [= <-].
  - unfold ret. intros Hr; injection Hr as _ <-. by rewrite Hs0.
Qed.

Lemma rerender_in_step dep w w' :
  rerender dep w = Some w' →
  (effect_dep (stt_api w) = dep → in_step w) → in_step w'.
Proof.
  unfold rerender. case_decide as Hd; [intros [= <-]; auto|].
  intros (u & Hr & _)%after_effect_Some _. by eapply effect_in_step.
Qed.

Lemma run_in_step op r w w' :
  run (handler op) r w = Some w' → in_step w → in_step w'.
Proof.
  intros Hrun Hin. destruct op as [P|f v|b].
  - revert Hrun. unfold run, invoke, handler, handleProviderSelect.
    destruct (String.eqb P ""); [by intros [= <-]|].
    cbn. destruct (stt_api w) as [s|] eqn:Hs; cbn; [|by intros [= <-]].
    intros [_ Hr]%settle_Some. eapply rerender_in_step; [exact Hr|].
    clear Hr. handlers. destruct r; cbn.
    + intros _ s' pid. destruct (List.find _ _); cbn;
        [destruct (api_keys s); cbn;
         [reduce_cases; (destruct (models s); cbn; [reduce_cases|])|]|];
        by intros [= <-] [= <-].
    + intros _ s' pid Hs' Hpid. cbn in *. eapply Hin; [|done].
      by rewrite <- Hs'.
  - destruct (guard_passes f (render w)) eqn:Hg.
    2:{ revert Hrun. unfold run, handler. rewrite guard_fails by done.
        by intros [= <-]. }
    destruct (guard_passes_selected _ _ Hg) as [sel Hsel].
    assert (Hc : f = BaseUrlField → isCustomProvider (render w) = true).
    { intros ->. cbn in Hg. by apply andb_true_iff in Hg as [? _]. }
    revert Hrun. unfold in_step in *.
    destruct f, r as [|e]; handlers; rewrite ?Hc by done; rewrite Hsel; cbn;
      destruct (stt_api w) as [s|] eqn:Hs; cbn;
      try (destruct (providers s) as [ps|] eqn:Hps; cbn);
      unfold rerender; cbn; rewrite decide_True by done;
      intros [= <-] s' pid; cbn; intros [= <-]; cbn; eauto.
  - revert Hrun. unfold in_step in *. handlers. cbn.
    destruct r as [|e], (stt_api w) as [s|] eqn:Hs; cbn; unfold rerender; cbn;
      rewrite decide_True by done; intros [= <-] s' pid; cbn;
      intros [= <-]; cbn; eauto; done.
Qed.

Lemma mount_in_step store w : mount store = Some w → in_step w.
Proof.
  unfold mount. set (w0 := Build_World _ _ _ _ _).
  intros (u & Hr & _)%after_effect_Some. by eapply effect_in_step.
Qed.

Lemma reachable_in_step w : reachable w → in_step w.
Proof.
  induction 1 as [store w Hm|op r w w' _ IH Hrun].
  - by eapply mount_in_step.
  - by eapply run_in_step.
Qed.

(** X4. Between two operations the provider id selected in the hook is the
    [provider_id] the store holds: no sequence of operations (fulfilled or
    rejected, each run to completion before the next) lets the form and the
    store disagree on the active provider. *)
Theorem selection_is_the_committed_provider w s pid :
  reachable w → stt_api w = Some s → provider_id s = Some pid →
  selectedProviderId (hook w) = Some pid.
Proof. intros Hr%reachable_in_step. apply Hr. Qed.

Lemma selection_is_the_committed_provider_witness :
  selectedProviderId (hook scenarioA_custom_world) = Some "custom".
Proof.
  apply (selection_is_the_committed_provider scenarioA_custom_world
           (with_provider_id "custom" scenarioA) "custom");
    [|reflexivity|reflexivity].
  apply (reach_run (SelectProvider "custom") Fulfilled scenarioA_world).
  - apply (reach_mount (Some scenarioA)). vm_compute. reflexivity.
  - vm_compute. reflexivity.
Defined.


(** ** What the handlers never do *)

(** X5. No handler lets an exception out: the part before the [await]
    returns, and the part after it returns too, for a fulfilled and for a
    rejected command, on any store entry (also one with fields missing) and
    whatever the world has become when the command settles.  A rejection or
    a TypeError ends in the [catch]. *)
Theorem handlers_never_throw op rd w :
  ∃ a, (handler op rd w).1 = inr a ∧
       ∀ cmd k r w', a = Awaiting cmd k → (k r w').1 = inr ().
Proof.
  destruct op as [P|[] v|b]; handlers.
  - destruct (String.eqb P ""); [by eexists|].
    destruct (sttApiSettings rd) as [s|]; [|by eexists].
    eexists. split; [reflexivity|]. intros cmd k r w' [= _ <-].
    destruct r; cbn; [|done].
    destruct (List.find _ _); cbn; [|done].
    destruct (api_keys s); cbn; [|done]. reduce_cases.
    all: destruct (models s); cbn; [|done]; by reduce_cases.
  - destruct (isCustomProvider rd); cbn; [|by eexists].
    destruct (nonempty _) as [sel|]; cbn; [|by eexists].
    eexists. split; [reflexivity|]. intros cmd k r w' [= _ <-].
    destruct r; cbn; [|done].
    destruct (sttApiSettings rd) as [s|]; cbn; [|done].
    by destruct (providers s).
  - destruct (nonempty _) as [sel|]; cbn; [|by eexists].
    eexists. split; [reflexivity|]. intros cmd k r w' [= _ <-].
    destruct r; cbn; [|done].
    by destruct (sttApiSettings rd).
  - destruct (nonempty _) as [sel|]; cbn; [|by eexists].
    eexists. split; [reflexivity|]. intros cmd k r w' [= _ <-].
    destruct r; cbn; [|done].
    by destruct (sttApiSettings rd).
  - eexists. split; [reflexivity|]. intros cmd k r w' [= _ <-].
    by destruct r.
Qed.

(** X6. Calling a handler either returns at once and leaves the whole
    world as it was, or issues exactly one command and touches neither the
    store nor the console before the command settles.  A command is never
    keyed by the empty provider id, and the command of a field handler is
    keyed by the selected provider id, with the typed value already shown
    and the busy flag of the field set. *)
Theorem invoke_returns_or_issues_one_command op w :
  invoke (handler op (render w)) w = (w, None) ∨
  ∃ w1 k cmd,
    invoke (handler op (render w)) w = (w1, Some k) ∧
    issued w1 = issued w ++ [cmd] ∧
    stt_api w1 = stt_api w ∧ console w1 = console w ∧
    providerId_of cmd ≠ Some "" ∧
    (∀ f v, op = SetField f v →
       providerId_of cmd = selectedProviderId (hook w) ∧
       shown f (hook w1) = v ∧ busy f (hook w1) = true).
Proof.
  destruct op as [P|f v|b].
  - unfold invoke, handler, handleProviderSelect.
    destruct (String.eqb_spec P "") as [->|HP]; [by left|].
    destruct (sttApiSettings (render w)) as [s|]; [|by left].
    right. do 3 eexists. split; [reflexivity|]. cbn.
    do 3 (split; [done|]). split; [by intros [= ?]|done].
  - destruct (guard_passes f (render w)) eqn:Hg.
    2:{ left. by apply guard_fails. }
    destruct (guard_passes_selected _ _ Hg) as [sel Hsel].
    pose proof Hsel as [Hs Hne]%nonempty_Some. cbn in Hs.
    assert (Hc : f = BaseUrlField → isCustomProvider (render w) = true).
    { intros ->. cbn in Hg. by apply andb_true_iff in Hg as [? _]. }
    right. destruct f; handlers; rewrite ?Hc by done; rewrite Hsel; cbn;
      (do 3 eexists; split; [reflexivity|]); cbn;
      (do 3 (split; [done|])); (split; [by intros [= ?]|]);
      by intros ? ? [= <- <-].
  - right. handlers. cbn. do 3 eexists. split; [reflexivity|]. cbn.
    by repeat split.
Qed.


(** ** What a fulfilled command commits *)

(** X7. A fulfilled [handleApiKeyChange] stores the key under the selected
    provider id and leaves the key of every other provider, and every other
    field of the snapshot, as it was; [handleModelChange] does the same on
    [models]. *)
Theorem key_and_model_commit_one_entry w v s sel :
  stt_api w = Some s →
  nonempty (selectedProviderId (hook w)) = Some sel →
  (∃ w' s' keys',
     run (λ rd, handleApiKeyChange rd v) Fulfilled w = Some w' ∧
     stt_api w' = Some s' ∧ api_keys s' = Some keys' ∧
     keys' !! sel = Some v ∧
     (∀ q, q ≠ sel → keys' !! q = api_keys s ≫= (.!! q)) ∧
     enabled s' = enabled s ∧ provider_id s' = provider_id s ∧
     providers s' = providers s ∧ models s' = models s) ∧
  (∃ w' s' ms',
     run (λ rd, handleModelChange rd v) Fulfilled w = Some w' ∧
     stt_api w' = Some s' ∧ models s' = Some ms' ∧
     ms' !! sel = Some v ∧
     (∀ q, q ≠ sel → ms' !! q = models s ≫= (.!! q)) ∧
     enabled s' = enabled s ∧ provider_id s' = provider_id s ∧
     providers s' = providers s ∧ api_keys s' = api_keys s).
Proof.
  intros Hs Hsel. split; handlers; cbn; rewrite Hsel; cbn; rewrite Hs; cbn;
    unfold rerender; cbn; rewrite decide_True by done;
    (do 3 eexists; split; [reflexivity|]); cbn;
    (do 2 (split; [reflexivity|])); (split; [apply lookup_insert_eq|]);
    (split; [|done]); intros q Hq; rewrite lookup_insert_ne by done.
  - by destruct (api_keys s).
  - by destruct (models s).
Qed.

Lemma key_and_model_commit_one_entry_witness :
  (∃ w' s' keys',
     run (λ rd, handleApiKeyChange rd "sk-1") Fulfilled scenarioA_world
       = Some w' ∧
     stt_api w' = Some s' ∧ api_keys s' = Some keys' ∧
     keys' !! "openai" = Some "sk-1" ∧
     (∀ q, q ≠ "openai" → keys' !! q = api_keys scenarioA ≫= (.!! q)) ∧
     enabled s' = enabled scenarioA ∧
     provider_id s' = provider_id scenarioA ∧
     providers s' = providers scenarioA ∧ models s' = models scenarioA) ∧
  (∃ w' s' ms',
     run (λ rd, handleModelChange rd "sk-1") Fulfilled scenarioA_world
       = Some w' ∧
     stt_api w' = Some s' ∧ models s' = Some ms' ∧
     ms' !! "openai" = Some "sk-1" ∧
     (∀ q, q ≠ "openai" → ms' !! q = models scenarioA ≫= (.!! q)) ∧
     enabled s' = enabled scenarioA ∧
     provider_id s' = provider_id scenarioA ∧
     providers s' = providers scenarioA ∧ api_keys s' = api_keys scenarioA).
Proof.
  apply (key_and_model_commit_one_entry scenarioA_world "sk-1" scenarioA
           "openai"); reflexivity.
Defined.

Lemma find_patched sel v (ps : list SttApiProvider) p :
  List.find (id_is (Some sel)) ps = Some p →
  List.find (id_is (Some sel))
    ((λ p, if String.eqb (id p) sel then with_base_url v p else p) <$> ps)
  = Some (with_base_url v p).
Proof.
  induction ps as [|q ps IH]; cbn; [done|].
  unfold id_is at 1 3. destruct (String.eqb_spec (id q) sel) as [Heq|Hne]; cbn.
  - rewrite !bool_decide_eq_true_2 by by rewrite Heq. by intros [= ->].
  - rewrite !bool_decide_eq_false_2 by by intros [= ?]. exact IH.
Qed.

(** X8. A value saved with a fulfilled command is the value the form shows
    after the component is rendered afresh from the store: for each of the
    three fields, on a snapshot with its three containers whose
    [provider_id] is the selected one, and whose key and model at that id
    are stored or whose id names no inherited object property, the first
    render on the committed snapshot shows the saved value and the same
    selection. *)
Theorem saved_value_survives_remount f w v s pid ps keys ms :
  stt_api w = Some s →
  provider_id s = Some pid → providers s = Some ps →
  api_keys s = Some keys → models s = Some ms →
  (keys !! pid = None → member_of pid = None) →
  (ms !! pid = None → member_of pid = None) →
  selectedProviderId (hook w) = provider_id s →
  guard_passes f (render w) = true →
  ∃ w' w'',
    run (λ rd, handleChange f rd v) Fulfilled w = Some w' ∧
    mount (stt_api w') = Some w'' ∧
    shown f (hook w'') = v ∧
    selectedProviderId (hook w'') = selectedProviderId (hook w).
Proof.
  intros Hs Hpid Hps Hkeys Hms Hk Hm Hsync Hg.
  destruct (guard_passes_selected _ _ Hg) as [sel Hsel].
  pose proof Hsel as [Hsel' Hne]%nonempty_Some. cbn in Hsel'.
  assert (sel = pid) as -> by congruence.
  assert (Hc : f = BaseUrlField → isCustomProvider (render w) = true).
  { intros ->. cbn in Hg. by apply andb_true_iff in Hg as [? _]. }
  destruct f.
  - specialize (Hc eq_refl).
    pose proof (isCustomProvider_selected _ Hc) as Hcs.
    rewrite Hsel in Hcs. injection Hcs as ->.
    pose proof Hc as (p & Hp & _)%isCustomProvider_true.
    unfold selectedProvider, r_providers in Hp. cbn in Hp.
    rewrite Hs, Hps, Hsel' in Hp. cbn in Hp.
    handlers. cbn. rewrite Hc. cbn. cbn in Hsel. rewrite Hsel. cbn.
    rewrite Hs. cbn. rewrite Hps. cbn. unfold rerender. cbn.
    rewrite decide_True by done.
    do 2 eexists. split; [reflexivity|]. cbn. unfold mount.
    erewrite initializeFromSettings_result;
      [|reflexivity|cbn; reflexivity|cbn; exact Hkeys|cbn; exact Hms
       |cbn; by rewrite Hpid|cbn; by rewrite Hpid].
    cbn. split; [reflexivity|]. cbn. rewrite Hpid.
    rewrite (find_patched _ _ _ _ Hp). by rewrite Hsel'.
  - handlers. cbn. cbn in Hsel. rewrite Hsel. cbn. rewrite Hs. cbn.
    unfold rerender. cbn. rewrite decide_True by done.
    do 2 eexists. split; [reflexivity|]. cbn. unfold mount.
    erewrite initializeFromSettings_result;
      [|reflexivity|cbn; exact Hps|cbn; reflexivity|cbn; exact Hms
       |cbn; rewrite Hpid; cbn; by rewrite Hkeys, lookup_insert_eq
       |cbn; by rewrite Hpid].
    cbn. split; [reflexivity|]. cbn. rewrite Hpid, Hkeys. cbn.
    rewrite lookup_insert_eq. by rewrite Hsel'.
  - handlers. cbn. cbn in Hsel. rewrite Hsel. cbn. rewrite Hs. cbn.
    unfold rerender. cbn. rewrite decide_True by done.
    do 2 eexists. split; [reflexivity|]. cbn. unfold mount.
    erewrite initializeFromSettings_result;
      [|reflexivity|cbn; exact Hps|cbn; exact Hkeys|cbn; reflexivity
       |cbn; by rewrite Hpid
       |cbn; rewrite Hpid; cbn; by rewrite Hms, lookup_insert_eq].
    cbn. split; [reflexivity|]. cbn. rewrite Hpid, Hms. cbn.
    rewrite lookup_insert_eq. by rewrite Hsel'.
Qed.

Lemma saved_value_survives_remount_witness :
  ∃ w' w'',
    run (λ rd, handleChange BaseUrlField rd "http://localhost:9000/v1")
      Fulfilled scenarioA_custom_world = Some w' ∧
    mount (stt_api w') = Some w'' ∧
    shown BaseUrlField (hook w'') = "http://localhost:9000/v1" ∧
    selectedProviderId (hook w'') =
      selectedProviderId (hook scenarioA_custom_world).
Proof.
  apply (saved_value_survives_remount BaseUrlField scenarioA_custom_world
           "http://localhost:9000/v1" (with_provider_id "custom" scenarioA)
           "custom" [openai; custom] ∅ ∅);
    try reflexivity; intros _; reflexivity.
Defined.

(** X9. The snapshot a handler commits is fixed when the handler is called:
    whatever the store holds when its command is fulfilled, the handler
    overwrites the entry with one and the same object, built from the entry
    of the render that created the handler.  What another handler committed
    in between is not merged. *)
Theorem commit_ignores_the_store_at_resolution op w :
  is_Some (stt_api w) →
  awaits (handler op (render w)) w →
  ∃ w1 k s',
    invoke (handler op (render w)) w = (w1, Some k) ∧
    ∀ wa, stt_api (k Fulfilled wa).2 = Some s'.
Proof.
  intros [s Hs]. unfold awaits. destruct op as [P|f v|b].
  - unfold invoke, handler, handleProviderSelect.
    destruct (String.eqb P ""); [by intros [? [=]]|]. cbn. rewrite Hs. cbn.
    intros _. do 3 eexists. split; [reflexivity|]. intros wa. handlers. cbn.
    destruct (List.find _ _); cbn; [|reflexivity].
    destruct (api_keys s); cbn; [|reflexivity]. reduce_cases.
    all: destruct (models s); cbn; [|reflexivity]; by reduce_cases.
  - destruct (guard_passes f (render w)) eqn:Hg.
    2:{ unfold handler. rewrite guard_fails by done. by intros [? [=]]. }
    intros _. destruct (guard_passes_selected _ _ Hg) as [sel Hsel].
    assert (Hc : f = BaseUrlField → isCustomProvider (render w) = true).
    { intros ->. cbn in Hg. by apply andb_true_iff in Hg as [? _]. }
    destruct f; handlers; rewrite ?Hc by done; rewrite Hsel; cbn;
      rewrite Hs; cbn.
    + specialize (Hc eq_refl).
      apply isCustomProvider_true in Hc as (p & Hp & _).
      apply selectedProvider_in in Hp. unfold r_providers in Hp.
      cbn in Hp. rewrite Hs in Hp.
      destruct (providers s) as [ps|]; cbn in *; [|by apply elem_of_nil in Hp].
      do 3 eexists. split; [reflexivity|]. by intros wa.
    + do 3 eexists. split; [reflexivity|]. by intros wa.
    + do 3 eexists. split; [reflexivity|]. by intros wa.
  - intros _. handlers. cbn. do 3 eexists. split; [reflexivity|].
    by intros wa.
Qed.

Lemma commit_ignores_the_store_at_resolution_witness :
  ∃ w1 k s',
    invoke (handler (SetField ApiKeyField "sk-1") (render scenarioA_world))
      scenarioA_world = (w1, Some k) ∧
    ∀ wa, stt_api (k Fulfilled wa).2 = Some s'.
Proof.
  apply (commit_ignores_the_store_at_resolution (SetField ApiKeyField "sk-1")
           scenarioA_world); by eexists.
Defined.


(** ** The component *)

(** X10. When the form is rendered, the value handed to the provider
    select is the empty string or the id of one of its options, and in the
    second case it is the selected provider id of the hook. *)
Theorem select_value_is_an_option w fv :
  form (SttApiSettingsComponent w) = Some fv →
  selectValue fv = "" ∨
  (selectedProviderId (hook w) = Some (selectValue fv) ∧
   ∃ lbl, (selectValue fv, lbl) ∈ options fv).
Proof.
  unfold SttApiSettingsComponent. cbn.
  destruct (isEnabled (stt_api w)); [|done]. intros [= <-]. cbn.
  destruct (selectedProvider (render w)) as [p|] eqn:Hp; cbn; [|by left].
  right. split.
  - by apply selectedProvider_id in Hp.
  - exists (label p). unfold providerOptions. apply list_elem_of_fmap.
    exists p. split; [done|]. by apply selectedProvider_in.
Qed.

Lemma select_value_is_an_option_witness :
  "custom" = "" ∨
  (selectedProviderId (hook swapped_custom_world) = Some "custom" ∧
   ∃ lbl, ("custom", lbl) ∈ [("openai", "OpenAI"); ("custom", "Custom")]).
Proof.
  apply (select_value_is_an_option swapped_custom_world
           {| options := [("openai", "OpenAI"); ("custom", "Custom")];
              selectValue := "custom";
              baseUrlField :=
                Some {| value := "http://localhost:8000/v1";
                        disabled := false |};
              apiKeyField := {| value := ""; disabled := false |};
              modelField := {| value := "whisper-1"; disabled := false |} |}).
  reflexivity.
Defined.

(** X11. Between two operations, on an enabled snapshot whose
    [provider_id] names one of its providers, the form is rendered, the
    provider select shows the committed provider id, and the base URL field
    is rendered exactly when that id is "custom". *)
Theorem form_shows_the_committed_provider w s pid :
  reachable w → stt_api w = Some s → valid s →
  provider_id s = Some pid → enabled s = Some true →
  ∃ fv,
    form (SttApiSettingsComponent w) = Some fv ∧
    selectValue fv = pid ∧
    (is_Some (baseUrlField fv) ↔ pid = "custom").
Proof.
  intros Hr%reachable_in_step Hs Hv Hpid Hen.
  pose proof (Hr s pid Hs Hpid) as Hsel.
  unfold valid in Hv. rewrite Hpid in Hv.
  destruct (providers s) as [ps|] eqn:Hps; [|done].
  destruct (find_id_is _ _ Hv) as (p & Hfind & Hid).
  assert (Hp : selectedProvider (render w) = Some p).
  { unfold selectedProvider, r_providers. cbn. by rewrite Hs, Hps, Hsel. }
  unfold SttApiSettingsComponent, isEnabled. rewrite Hs. cbn. rewrite Hen.
  cbn. eexists. split; [reflexivity|]. cbn. rewrite Hp. cbn.
  split; [done|]. unfold isCustomProvider. rewrite Hp, Hid.
  destruct (String.eqb_spec pid "custom") as [->|Hne].
  - split; [done|]. intros _. by eexists.
  - split; [by intros [? [=]]|done].
Qed.

Lemma form_shows_the_committed_provider_witness :
  ∃ fv,
    form (SttApiSettingsComponent swapped_custom_world) = Some fv ∧
    selectValue fv = "custom" ∧
    (is_Some (baseUrlField fv) ↔ "custom" = "custom").
Proof.
  apply (form_shows_the_committed_provider swapped_custom_world
           (swapped_flags "custom") "custom"); try reflexivity.
  - apply (reach_mount (Some (swapped_flags "custom"))). vm_compute.
    reflexivity.
  - cbn. do 2 constructor.
Defined.

(** X12. A fulfilled [handleToggleEnabled b] always completes, leaves the
    hook state alone, and is what the next render shows: the switch is
    checked exactly when [b] is true and the rest of the form is rendered
    exactly when [b] is true.  On a loaded snapshot it changes [enabled]
    and nothing else. *)
Theorem toggle_round_trip_through_the_view w b :
  ∃ w',
    run (λ rd, handleToggleEnabled rd b) Fulfilled w = Some w' ∧
    hook w' = hook w ∧
    checked (SttApiSettingsComponent w') = b ∧
    (form (SttApiSettingsComponent w') = None ↔ b = false) ∧
    (∀ s, stt_api w = Some s →
       ∃ s', stt_api w' = Some s' ∧ enabled s' = Some b ∧
             provider_id s' = provider_id s ∧ providers s' = providers s ∧
             api_keys s' = api_keys s ∧ models s' = models s).
Proof.
  handlers. cbn. unfold rerender. cbn.
  rewrite decide_True by by destruct (stt_api w).
  eexists. split; [reflexivity|]. cbn. split; [done|].
  unfold SttApiSettingsComponent, isEnabled. cbn.
  assert (He : enabled (spread_with_enabled (stt_api w) b) = Some b)
    by by destruct (stt_api w).
  rewrite He. cbn. split; [done|]. split.
  - by destruct b.
  - intros s ->. by eexists.
Qed.

(** X13. When the form is rendered, the base URL field is rendered exactly
    when [handleBaseUrlChange] would act on a call (issue its command
    rather than return at once); the field shows the base URL of the hook
    and is disabled exactly while that field is being saved. *)
Theorem base_url_field_shown_iff_handler_acts w v fv :
  form (SttApiSettingsComponent w) = Some fv →
  (is_Some (baseUrlField fv) ↔ awaits (handleBaseUrlChange (render w) v) w) ∧
  (∀ i, baseUrlField fv = Some i →
        value i = baseUrl (hook w) ∧ disabled i = isBaseUrlUpdating (hook w)).
Proof.
  unfold SttApiSettingsComponent. cbn.
  destruct (isEnabled (stt_api w)); [|done]. intros [= <-]. cbn.
  unfold awaits, invoke, handleBaseUrlChange.
  destruct (isCustomProvider (render w)) eqn:Hc.
  - rewrite (isCustomProvider_selected _ Hc). cbn.
    split; [|by intros ? [= <-]]. split; intros _; by eexists.
  - cbn. split; [|done]. split; by intros [? [=]].
Qed.

Lemma base_url_field_shown_iff_handler_acts_witness :
  (is_Some (Some {| value := "http://localhost:8000/v1"; disabled := false |})
   ↔ awaits (handleBaseUrlChange (render swapped_custom_world) "http://x")
       swapped_custom_world) ∧
  (∀ i, Some {| value := "http://localhost:8000/v1"; disabled := false |}
        = Some i →
        value i = baseUrl (hook swapped_custom_world) ∧
        disabled i = isBaseUrlUpdating (hook swapped_custom_world)).
Proof.
  apply (base_url_field_shown_iff_handler_acts swapped_custom_world "http://x"
           {| options := [("openai", "OpenAI"); ("custom", "Custom")];
              selectValue := "custom";
              baseUrlField :=
                Some {| value := "http://localhost:8000/v1";
                        disabled := false |};
              apiKeyField := {| value := ""; disabled := false |};
              modelField := {| value := "whisper-1"; disabled := false |} |}).
  reflexivity.
Defined.

(** X14. When the component is enabled but no provider id is selected
    (undefined or the empty string), the API key and model inputs are
    rendered and the base URL field is not, and calling any of the three
    field handlers leaves the whole world as it was, whatever the value:
    nothing is shown, issued, stored or logged. *)
Theorem inputs_without_selection_do_nothing w :
  isEnabled (stt_api w) = true →
  nonempty (selectedProviderId (hook w)) = None →
  ∃ fv,
    form (SttApiSettingsComponent w) = Some fv ∧
    baseUrlField fv = None ∧
    value (apiKeyField fv) = apiKey (hook w) ∧
    value (modelField fv) = model (hook w) ∧
    ∀ f v r, run (λ rd, handleChange f rd v) r w = Some w.
Proof.
  intros Hen Hsel. unfold SttApiSettingsComponent. rewrite Hen.
  assert (Hc : isCustomProvider (render w) = false).
  { apply not_true_is_false. intros Hc%isCustomProvider_selected.
    cbn in Hc. congruence. }
  rewrite Hc. eexists. split; [reflexivity|]. cbn. do 3 (split; [done|]).
  intros f v r. unfold run. rewrite guard_fails; [done|].
  destruct f; cbn; rewrite ?Hc, ?Hsel; done.
Qed.

Lemma inputs_without_selection_do_nothing_witness :
  ∃ fv,
    form (SttApiSettingsComponent enabled_only_world) = Some fv ∧
    baseUrlField fv = None ∧
    value (apiKeyField fv) = apiKey (hook enabled_only_world) ∧
    value (modelField fv) = model (hook enabled_only_world) ∧
    ∀ f v r,
      run (λ rd, handleChange f rd v) r enabled_only_world
        = Some enabled_only_world.
Proof.
  apply (inputs_without_selection_do_nothing enabled_only_world);
    reflexivity.
Defined.


(** ** The console *)

(** X15. On a complete snapshot every operation completes, provided a
    fulfilled [handleProviderSelect] is called with an id that names no
    inherited object property, and the console gets one line exactly when
    a command was issued and rejected: the message of the handler with the
    error.  A fulfilled command, and a call that returns before issuing
    one, log nothing. *)
Theorem console_gets_one_line_per_rejected_command op r w s :
  stt_api w = Some s → complete s →
  (∀ P, op = SelectProvider P → r = Fulfilled → member_of P = None) →
  ∃ w',
    run (handler op) r w = Some w' ∧
    (r = Fulfilled → console w' = console w) ∧
    (¬ awaits (handler op (render w)) w → console w' = console w) ∧
    (∀ e, r = Rejected e → awaits (handler op (render w)) w →
       console w' = console w ++ [(failure_message op, RemoteError e)]).
Proof.
  intros Hs Hc Hsel.
  destruct Hc as ([e0 He] & [pid Hpid] & [ps Hps] & [keys Hkeys] & [ms Hms]).
  unfold awaits. destruct op as [P|f v|b].
  - unfold run, invoke, handler, handleProviderSelect.
    destruct (String.eqb P ""); cbn.
    { exists w. repeat split; try done; by intros ? _ [? [=]]. }
    rewrite Hs. cbn. destruct r as [|e].
    + pose proof (Hsel P eq_refl eq_refl) as Hm.
      match goal with
      | |- context [settle ?k ?w1] =>
          destruct (settle_complete k w1 (with_provider_id P s) P)
            as (w' & Hw' & _ & Hcon);
            [| | |reflexivity|exact Hm|rewrite Hw']
      end.
      * handlers. cbn. destruct (List.find _ _); cbn; [|done].
        rewrite Hkeys. cbn. rewrite or_else_js_get by done. cbn.
        rewrite Hms. cbn. by rewrite or_else_js_get by done.
      * handlers. cbn. destruct (List.find _ _); cbn; [|done].
        rewrite Hkeys. cbn. rewrite or_else_js_get by done. cbn.
        rewrite Hms. cbn. by rewrite or_else_js_get by done.
      * unfold complete. cbn. rewrite He, Hps, Hkeys, Hms.
        repeat split; by eexists.
      * exists w'. split; [done|]. rewrite Hcon.
        split; [|split; [by intros []; eexists|by intros ? [=]]].
        intros _. handlers. cbn. destruct (List.find _ _); cbn; [|done].
        rewrite Hkeys. cbn. rewrite or_else_js_get by done. cbn.
        rewrite Hms. cbn. by rewrite or_else_js_get by done.
    + handlers. cbn. unfold rerender. cbn. rewrite decide_True by done.
      eexists. split; [reflexivity|]. cbn.
      split; [done|]. split; [by intros []; eexists|by intros ? [= <-] _].
  - destruct (guard_passes f (render w)) eqn:Hg.
    2:{ unfold run, handler. rewrite guard_fails by done.
        exists w. repeat split; try done; by intros ? _ [? [=]]. }
    destruct (guard_passes_selected _ _ Hg) as [sel Hsel'].
    assert (Hcu : f = BaseUrlField → isCustomProvider (render w) = true).
    { intros ->. cbn in Hg. by apply andb_true_iff in Hg as [? _]. }
    destruct f, r as [|e]; handlers; rewrite ?Hcu by done; rewrite Hsel';
      cbn; rewrite Hs; cbn; rewrite ?Hps; cbn; unfold rerender; cbn;
      rewrite decide_True by done;
      (eexists; split; [reflexivity|]); cbn;
      (split; [done|]); (split; [by intros []; eexists|]);
      by intros ? [= <-].
  - destruct r as [|e]; handlers; cbn; rewrite Hs; cbn; unfold rerender;
      cbn; rewrite decide_True by done;
      (eexists; split; [reflexivity|]); cbn;
      (split; [done|]); (split; [by intros []; eexists|]);
      by intros ? [= <-].
Qed.

Lemma console_gets_one_line_per_rejected_command_witness :
  ∃ w',
    run (handler (SetField ModelField "gpt-x")) (Rejected "offline")
      scenarioA_world = Some w' ∧
    (Rejected "offline" = Fulfilled → console w' = console scenarioA_world) ∧
    (¬ awaits (handler (SetField ModelField "gpt-x") (render scenarioA_world))
         scenarioA_world →
     console w' = console scenarioA_world) ∧
    (∀ e, Rejected "offline" = Rejected e →
       awaits (handler (SetField ModelField "gpt-x") (render scenarioA_world))
         scenarioA_world →
       console w' =
         console scenarioA_world ++
           [(failure_message (SetField ModelField "gpt-x"), RemoteError e)]).
Proof.
  apply (console_gets_one_line_per_rejected_command
           (SetField ModelField "gpt-x") (Rejected "offline") scenarioA_world
           scenarioA); [reflexivity|apply complete_intro|discriminate].
Defined.

(** ** Selecting one provider and then the previous one *)

Lemma mount_inv s w pid :
  mount (Some s) = Some w →
  provider_id s = Some pid → member_of pid = None →
  ∃ ps keys ms,
    providers s = Some ps ∧ api_keys s = Some keys ∧ models s = Some ms ∧
    w = {| stt_api := Some s;
           hook :=
             {| selectedProviderId := Some pid;
                baseUrl :=
                  match List.find (id_is (Some pid)) ps with
                  | Some p => base_url p
                  | None => ""
                  end;
                apiKey := default "" (keys !! pid);
                model := default "whisper-1" (ms !! pid);
                isBaseUrlUpdating := false; isApiKeyUpdating := false;
                isModelUpdating := false |};
           issued := []; console := []; render_throws := false |}.
Proof.
  unfold mount. set (w0 := Build_World _ _ _ _ _). intros Hm Hpid Hmem.
  destruct (providers s) as [ps|] eqn:Hps;
    [|edestruct (initializeFromSettings_throws (render w0) s w0) as [? Ht];
      [done|by left|by rewrite Ht in Hm]].
  destruct (api_keys s) as [keys|] eqn:Hkeys;
    [|edestruct (initializeFromSettings_throws (render w0) s w0) as [? Ht];
      [done|by right; left|by rewrite Ht in Hm]].
  destruct (models s) as [ms|] eqn:Hms;
    [|edestruct (initializeFromSettings_throws (render w0) s w0) as [? Ht];
      [done|by right; right|by rewrite Ht in Hm]].
  erewrite initializeFromSettings_result in Hm;
    [|reflexivity|done|done|done|by rewrite Hpid|by rewrite Hpid].
  cbn in Hm. injection Hm as <-. exists ps, keys, ms. by rewrite Hpid.
Qed.

(** X16. Right after the first render on a snapshot, selecting another
    provider of the list and then the original one, both with fulfilled
    commands and neither id empty or the name of an inherited object
    property, brings back the snapshot and the hook state of the first
    render; two commands were issued, in that order. *)
Theorem select_away_and_back s w ps P Q :
  mount (Some s) = Some w →
  provider_id s = Some P → providers s = Some ps →
  P ≠ "" → Q ≠ "" → P ∈ id <$> ps → Q ∈ id <$> ps →
  member_of P = None → member_of Q = None →
  ∃ w1 w2,
    run (λ rd, handleProviderSelect rd Q) Fulfilled w = Some w1 ∧
    run (λ rd, handleProviderSelect rd P) Fulfilled w1 = Some w2 ∧
    stt_api w2 = Some s ∧ hook w2 = hook w ∧
    issued w2 = [setSttApiProvider Q; setSttApiProvider P].
Proof.
  intros Hm HP Hps HPne HQne HPin HQin HPm HQm.
  destruct (mount_inv _ _ _ Hm HP HPm)
    as (ps' & keys & ms & Hps' & Hkeys & Hms & ->).
  assert (ps' = ps) as -> by congruence.
  destruct (find_id_is _ _ HPin) as (p & Hp & _).
  destruct (find_id_is _ _ HQin) as (q & Hq & _).
  do 2 eexists.
  split; [by eapply run_select_fulfilled|].
  split; [by eapply run_select_fulfilled|].
  cbn. rewrite Hp. cbn. split; [|done].
  f_equal. destruct s; cbn in *. by subst.
Qed.

Lemma select_away_and_back_witness :
  ∃ w1 w2,
    run (λ rd, handleProviderSelect rd "custom") Fulfilled scenarioA_world
      = Some w1 ∧
    run (λ rd, handleProviderSelect rd "openai") Fulfilled w1 = Some w2 ∧
    stt_api w2 = Some scenarioA ∧ hook w2 = hook scenarioA_world ∧
    issued w2 = [setSttApiProvider "custom"; setSttApiProvider "openai"].
Proof.
  apply (select_away_and_back scenarioA scenarioA_world [openai; custom]
           "openai" "custom").
  - vm_compute. reflexivity.
  - reflexivity.
  - reflexivity.
  - discriminate.
  - discriminate.
  - cbn. constructor.
  - cbn. do 2 constructor.
  - reflexivity.
  - reflexivity.
Defined.
